(** * Room encryption orchestrator of hydrogen-web

    A shallow embedding of [src/matrix/e2ee/RoomEncryption.js]: the class
    [RoomEncryption] and its pipeline objects [DecryptionPreparation],
    [DecryptionChanges] and [BatchDecryptionResult].

    The class is a coordinator: nearly everything it does is a call on a
    collaborator (megolm engines, olm layer, device tracker, key backup,
    storage, home-server API, logger).  The embedding therefore is a small
    state-and-exception monad [Async] over a [World] that holds

    - the mutable fields of the orchestrator that the code reads back
      ([_sessionBackup], [_isFlushingRoomKeyShares], [_disposed]),
    - the history of collaborator calls made so far ([trace]), and
    - the operations store with its open transactions.

    What a collaborator answers is given by an environment record [Env] of
    oracle functions; every oracle sees the world at the moment of the call,
    so answers may depend on the whole history.  Calls that the source guards
    with try/catch/finally and calls that go over the network may throw; the
    other collaborator calls are total.

    [await] is sequencing followed by a suspension: while a task is suspended
    another task may call [dispose()] on the orchestrator (the environment
    decides, per suspension).  A task started with [log.wrapDetached] is run
    to completion where it is started.  [Promise.all] over callbacks that
    only make a call is the sequence of these calls; over the callbacks that
    request a session from the backup it is read as a loop that finishes one
    request before it starts the next, where the runtime would start them
    all and resume them as the answers come in: the properties below concern
    one request at a time.

    The parameters [hsApi] and [log] of the methods are collaborators and are
    part of [Env] and of the history; [newKeys] of [prepareDecryptAll] is only
    passed on to the engine and is left out.  The sender-device cache of
    [_verifyDecryptionResult] and [notifyTimelineClosed] is threaded as a
    value of its own.  Not embedded are [getEventIdsForMissingKey] and
    [DecryptionPreparation.dispose], which only delegate,
    [ensureMessageKeyIsShared], which runs on the clock, and the methods of
    [BatchDecryptionResult]. *)

From Stdlib Require Import String List Bool ZArith Lia.
From stdpp Require Import base option list gmap strings.

Local Open Scope string_scope.
Local Open Scope list_scope.

(** ** Data model *)

Abbreviation UserId := string (only parsing).
Abbreviation DeviceId := string (only parsing).
Abbreviation RoomId := string (only parsing).
Abbreviation EventId := string (only parsing).
Abbreviation TxnId := nat (only parsing).
(** Payloads that the orchestrator only passes on. *)
Abbreviation Content := string (only parsing).

(** JS errors: [name], the home-server [errcode], the decryption [code]. *)
Record Err := mkErr {
  err_name : string;
  err_errcode : option string;
  err_code : option string;
  err_message : string
}.

Definition Error (message : string) : Err :=
  mkErr "Error" None None message.

(** [DecryptionSource] is a string enum; any other value reaches the
    [throw new Error("Unknown source: " + source)] branch. *)
Inductive DecryptionSource :=
| Sync
| Timeline
| Retry
| OtherSource (s : string).

Definition isSync (source : DecryptionSource) : bool :=
  match source with Sync => true | _ => false end.

Definition sourceName (source : DecryptionSource) : string :=
  match source with
  | Sync => "Sync"
  | Timeline => "Timeline"
  | Retry => "Retry"
  | OtherSource s => s
  end.

(** A member change as [writeMemberChanges] reads it. *)
Record MemberChange := mkMemberChange {
  userId : UserId;
  hasJoined : bool;
  hasLeft : bool
}.

Record RoomKeyMessage := mkRoomKeyMessage {
  room_id : RoomId;
  session_id : string;
  session_key : string;
  chain_index : nat
}.

(** The durable operation; [userIds = None] is the JS [null]. *)
Record Operation := mkOperation {
  id : string;
  type : string;
  scope : RoomId;
  userIds : option (list UserId);
  roomKeyMessage : RoomKeyMessage
}.

(** A timeline event: the fields the orchestrator looks at.  The two
    [redacted_because] fields are only tested for truthiness; an absent
    [content] gives [None] in the three content fields. *)
Record Event := mkEvent {
  event_id : EventId;
  redacted_because : bool;
  unsigned_redacted_because : bool;
  content_algorithm : option string;
  content_sender_key : option string;
  content_session_id : option string
}.

Record Device := mkDevice {
  device_userId : UserId;
  deviceId : DeviceId
}.

Record OlmMessage := mkOlmMessage {
  device : Device;
  content : Content
}.

(** A record of the key backup. *)
Record BackupSession := mkBackupSession {
  algorithm : option string;
  sender_key : option string;
  backup_session_key : string
}.

(** A room key parsed from a backup record; [eventIds] may be undefined. *)
Record RoomKey := mkRoomKey {
  senderKey : option string;
  sessionId : option string;
  eventIds : option (list EventId)
}.

Record DecryptionResult := mkDecryptionResult {
  plaintext : string;
  senderCurve25519Key : string
}.

#[global] Instance Device_eq_dec : EqDecision Device.
Proof. solve_decision. Defined.

Inductive StoreName := storeNames_inboundGroupSessions | storeNames_operations.

Inductive SessionCache := megolmSyncCache | megolmBackfillCache | customCache.

Inductive LogLevel := LevelWarn | LevelError.

Inductive LogValue :=
| LBool (b : bool)
| LNum (n : nat)
| LText (s : option string)
| LList (l : list string)
| LSource (s : DecryptionSource).

(** The body of a to-device request: user id, then device id, to content. *)
Abbreviation Payload := (gmap string (gmap string string)) (only parsing).

(** A write buffered in a transaction on the operations store. *)
Inductive OperationsWrite :=
| OpAdd (operation : Operation)
| OpUpdate (operation : Operation)
| OpRemove (operationId : string).

(** Calls on collaborators, in the vocabulary of the source. *)
Inductive Effect :=
(* storage *)
| EReadTxn (stores : list StoreName) (txn : TxnId)
| EReadWriteTxn (stores : list StoreName) (txn : TxnId)
| ETxnComplete (txn : TxnId)
| ETxnAbort (txn : TxnId)
| EOperations (txn : TxnId) (write : OperationsWrite)
| EGetAllByTypeAndScope (txn : TxnId) (type : string) (scope : RoomId)
(* megolm encryption *)
| EDiscardOutboundSession (room : RoomId) (txn : TxnId)
| ECreateRoomKeyMessage (room : RoomId) (txn : TxnId)
| ECreateWithheldMessage (message : RoomKeyMessage) (code reason : string)
(* megolm decryption *)
| ECreateSessionCache
| ECacheDispose (cache : SessionCache)
| EMegolmPrepareDecryptAll (room : RoomId) (validEvents : list Event)
    (cache : SessionCache) (txn : TxnId)
| EMegolmDecrypt
| EMegolmWrite (txn : TxnId)
| EAddMissingKeyEventIds (room : RoomId) (senderKey sessionId : option string)
    (eventIds : list EventId) (txn : TxnId)
| EHasSession (room : RoomId) (senderKey sessionId : option string) (txn : TxnId)
| ERoomKeyFromBackup (room : RoomId) (sessionId : option string)
    (session : option BackupSession)
| EWriteRoomKey (roomKey : RoomKey) (txn : TxnId)
| ERoomKeyDispose (roomKey : RoomKey)
(* backup, room, session *)
| EGetSession (room : RoomId) (sessionId : option string)
| ENotifyRoomKey (roomKey : RoomKey) (eventIds : list EventId)
| ENotifyMissingMegolmSession
(* device tracker, olm, home server *)
| EDeviceTrackerWriteMemberChanges (room : RoomId)
    (memberChanges : list MemberChange) (txn : TxnId)
| ETrackRoom (room : RoomId)
| EDevicesForTrackedRoom (room : RoomId)
| EDevicesForRoomMembers (room : RoomId) (userIds : list UserId)
| EOlmEncrypt (type : string) (message : RoomKeyMessage) (devices : list Device)
| ESendToDevice (type : string) (payload : Payload) (txnId : string)
(* clock *)
| ECreateTimeout (ms : Z)
(* logging *)
| ELogSet (key : string) (value : LogValue)
| ELogLevel (level : LogLevel)
| ELogError (err : Err)
| ELogLog (l : string) (fields : list (string * LogValue))
| ELogWrap (label : string)
| ELogWrapDetached (label : string).

(** ** The world *)

Record World := mkWorld {
  trace : list Effect;
  (** this._sessionBackup is set *)
  _sessionBackup : bool;
  _isFlushingRoomKeyShares : bool;
  _disposed : bool;
  (** the operations store, as committed *)
  operationsStore : gmap string Operation;
  (** open transactions on the operations store and their buffered writes *)
  openTxns : gmap nat (list OperationsWrite);
  nextTxn : nat
}.

Definition with_trace (t : list Effect) (w : World) : World :=
  mkWorld t (_sessionBackup w) (_isFlushingRoomKeyShares w) (_disposed w)
    (operationsStore w) (openTxns w) (nextTxn w).

Definition with_sessionBackup (b : bool) (w : World) : World :=
  mkWorld (trace w) b (_isFlushingRoomKeyShares w) (_disposed w)
    (operationsStore w) (openTxns w) (nextTxn w).

Definition with_isFlushingRoomKeyShares (b : bool) (w : World) : World :=
  mkWorld (trace w) (_sessionBackup w) b (_disposed w)
    (operationsStore w) (openTxns w) (nextTxn w).

Definition with_disposed (b : bool) (w : World) : World :=
  mkWorld (trace w) (_sessionBackup w) (_isFlushingRoomKeyShares w) b
    (operationsStore w) (openTxns w) (nextTxn w).

Definition with_storage (store : gmap string Operation)
    (txns : gmap nat (list OperationsWrite)) (next : nat) (w : World) : World :=
  mkWorld (trace w) (_sessionBackup w) (_isFlushingRoomKeyShares w) (_disposed w)
    store txns next.

Definition record (e : Effect) (w : World) : World :=
  with_trace (trace w ++ [e]) w.

(** A freshly constructed orchestrator over an empty store. *)
Definition newWorld (sessionBackup : bool) : World :=
  mkWorld [] sessionBackup false false ∅ ∅ 0.

(** ** The monad of async methods *)

Inductive Completion (A : Type) :=
| Return (a : A)
| Throw (e : Err).
Arguments Return {A} a.
Arguments Throw {A} e.

Definition Async (A : Type) : Type := World -> Completion A * World.

Definition ret {A} (a : A) : Async A := fun w => (Return a, w).

Definition throw {A} (e : Err) : Async A := fun w => (Throw e, w).

Definition bind {A B} (m : Async A) (k : A -> Async B) : Async B :=
  fun w =>
    match m w with
    | (Return a, w') => k a w'
    | (Throw e, w') => (Throw e, w')
    end.

Declare Scope async_scope.
Delimit Scope async_scope with async.
Bind Scope async_scope with Async.

Notation "x <- m ;; k" := (bind m (fun x => k))
  (at level 20, m at level 99, k at level 200, only parsing) : async_scope.
Notation "m ;;; k" := (bind m (fun _ => k))
  (at level 100, k at level 200, only parsing, right associativity) : async_scope.

Local Open Scope async_scope.

(** try { m } catch (err) { handler err } *)
Definition tryCatch {A} (m : Async A) (handler : Err -> Async A) : Async A :=
  fun w =>
    match m w with
    | (Return a, w') => (Return a, w')
    | (Throw e, w') => handler e w'
    end.

(** try { m } finally { fin }: [fin] runs on both exits; if it completes
    normally the completion of [m] stands. *)
Definition tryFinally {A} (m : Async A) (fin : Async unit) : Async A :=
  fun w =>
    match m w with
    | (c, w') =>
        match fin w' with
        | (Return _, w'') => (c, w'')
        | (Throw e, w'') => (Throw e, w'')
        end
    end.

Definition emit (e : Effect) : Async unit :=
  fun w => (Return tt, record e w).

(** A call on a collaborator: recorded, and answered by an oracle that sees
    the world at the moment of the call. *)
Definition call {A} (e : Effect) (answer : World -> Completion A) : Async A :=
  fun w => (answer w, record e w).

Definition get {A} (f : World -> A) : Async A := fun w => (Return (f w), w).

Definition modify (f : World -> World) : Async unit := fun w => (Return tt, f w).

Definition when (b : bool) (m : Async unit) : Async unit :=
  if b then m else ret tt.

(** for (const x of xs) { await body(x) } and the sequential reading of
    Promise.all(xs.map(body)). *)
Fixpoint forEach {A} (xs : list A) (body : A -> Async unit) : Async unit :=
  match xs with
  | [] => ret tt
  | x :: rest => body x ;;; forEach rest body
  end.

Definition run {A} (m : Async A) (w : World) : Completion A * World := m w.

(** The calls a run added to the history. *)
Definition since (w : World) (w' : World) : list Effect :=
  drop (length (trace w)) (trace w').

(** ** Collaborators *)

(** The answers of the collaborators and the constants imported from
    modules outside [RoomEncryption.js]. *)
Record MegolmEncryption := mkMegolmEncryption {
  createRoomKeyMessage : World -> TxnId -> option RoomKeyMessage;
  createWithheldMessage : RoomKeyMessage -> string -> string -> Content
}.

Record MegolmDecryption := mkMegolmDecryption {
  (** the outcome {results, errors} of the engine's prepareDecryptAll /
      decrypt / write for the events handed to it *)
  changes_write :
    World -> list Event -> gmap string DecryptionResult * gmap string Err;
  hasSession : World -> option string -> option string -> bool;
  (** [None] is an undefined room key *)
  roomKeyFromBackup :
    World -> option string -> option BackupSession -> option RoomKey;
  writeRoomKey : World -> RoomKey -> Completion bool
}.

Record DeviceTracker := mkDeviceTracker {
  trackRoom : World -> Completion unit;
  devicesForTrackedRoom : World -> Completion (list Device);
  devicesForRoomMembers : World -> list UserId -> Completion (list Device)
}.

Record Env := mkEnv {
  room_id_of : RoomId;                                  (* this._room.id *)
  (** [MEGOLM_ALGORITHM] of [./common.js] *)
  MEGOLM_ALGORITHM : string;
  (** Math.floor(Math.random() * Number.MAX_SAFE_INTEGER).toString() *)
  random_operationId : World -> string;
  (** [makeTxnId] of [../common.js] *)
  makeTxnId : World -> string;
  (** whether another task calls [dispose()] during this suspension *)
  disposedWhileSuspended : World -> bool;
  (** whether a write on the operations store throws *)
  operations_throws : World -> OperationsWrite -> option Err;
  _megolmEncryption : MegolmEncryption;
  _megolmDecryption : MegolmDecryption;
  _deviceTracker : DeviceTracker;
  (** this._sessionBackup.getSession; [None] is a null or undefined session *)
  getSession : World -> option string -> Completion (option BackupSession);
  (** this._room.notifyRoomKey *)
  notifyRoomKey : World -> RoomKey -> list EventId -> Completion unit;
  (** this._olmEncryption.encrypt *)
  olm_encrypt :
    World -> RoomKeyMessage -> list Device -> Completion (list OlmMessage);
  (** hsApi.sendToDevice(...).response() *)
  sendToDevice : World -> string -> Payload -> Completion unit
}.

Definition ENCRYPTED_TYPE : string := "m.room.encrypted".

(** ** Helpers imported by the source *)

(** Modelled from the spec: [groupBy] of [utils/groupBy.js], which is not
    among the sources.  Groups are kept in the order in which their key first
    occurs, members in array order. *)
Fixpoint groupInsert {K A} `{EqDecision K} (k : K) (a : A)
    (groups : list (K * list A)) : list (K * list A) :=
  match groups with
  | [] => [(k, [a])]
  | (k', members) :: rest =>
      if decide (k' = k) then (k', members ++ [a]) :: rest
      else (k', members) :: groupInsert k a rest
  end.

Definition groupBy {K A} `{EqDecision K} (array : list A) (groupFn : A -> K)
    : list (K * list A) :=
  fold_left (fun groups a => groupInsert (groupFn a) a groups) array [].

(** Modelled from the spec: [groupEventsBySession] of
    [megolm/decryption/utils.js], which is not among the sources: events
    grouped by (sender key, session id); a group's [senderKey] and
    [sessionId] are those of its events. *)
Record SessionKeyGroup := mkSessionKeyGroup {
  group_senderKey : option string;
  group_sessionId : option string;
  group_events : list Event
}.

Definition sessionKeyOf (event : Event) : option string * option string :=
  (content_sender_key event, content_session_id event).

Definition groupEventsBySession (events : list Event)
    : list ((option string * option string) * SessionKeyGroup) :=
  map (fun '(key, members) => (key, mkSessionKeyGroup key.1 key.2 members))
      (groupBy events sessionKeyOf).

(** Modelled from the spec: [mergeMap(src, dst)] of [utils/mergeMap.js],
    which is not among the sources: every entry of [src] is set in [dst]. *)
Definition mergeMap {V} (src dst : gmap string V) : gmap string V :=
  src ∪ dst.

(** Array.from(devices.reduce((set, device) => set.add(device.userId), new Set())) *)
Definition deviceOwners (devices : list Device) : list UserId :=
  fold_left
    (fun set d => if bool_decide (device_userId d ∈ set) then set
                  else set ++ [device_userId d])
    devices [].

(** The object built by the two reduce calls of [_sendSharedMessageToDevices]
    and [_sendMessagesToDevices]: one property per user id, holding one
    property per device id. *)
Definition deviceMapOf {A} (deviceIdOf : A -> DeviceId) (contentOf : A -> Content)
    (items : list A) : gmap string string :=
  fold_left (fun deviceMap a => <[deviceIdOf a := contentOf a]> deviceMap) items ∅.

Definition payloadOf {A} (deviceIdOf : A -> DeviceId) (contentOf : A -> Content)
    (byUser : list (UserId * list A)) : gmap string (gmap string string) :=
  fold_left
    (fun userMap '(userId, items) =>
       <[userId := deviceMapOf deviceIdOf contentOf items]> userMap)
    byUser ∅.

(** devices.filter(d => !messages.some(m => m.device === d)); device
    objects are compared by their user and device id. *)
Definition missingDevicesOf (devices : list Device) (messages : list OlmMessage)
    : list Device :=
  List.filter
    (fun d => negb (existsb (fun m => bool_decide (device m = d)) messages))
    devices.

(** operation.userIds.filter(userId => missingDevices.some(d => d.userId === userId)) *)
Definition unsentUserIdsOf (userIds : list UserId) (missingDevices : list Device)
    : list UserId :=
  List.filter
    (fun userId =>
       existsb (fun d => bool_decide (device_userId d = userId)) missingDevices)
    userIds.

Definition setUserIds (operation : Operation) (ids : list UserId) : Operation :=
  mkOperation (id operation) (type operation) (scope operation) (Some ids)
    (roomKeyMessage operation).

(** Modelled from the spec: the storage collaborator, whose implementation is
    not among the sources.  A write transaction buffers its writes; they reach
    the store when the transaction is completed explicitly, and are dropped
    when it is aborted. *)
Definition applyWrite (store : gmap string Operation) (write : OperationsWrite)
    : gmap string Operation :=
  match write with
  | OpAdd operation => <[id operation := operation]> store
  | OpUpdate operation => <[id operation := operation]> store
  | OpRemove operationId => delete operationId store
  end.

Definition readTxn (stores : list StoreName) : Async TxnId :=
  fun w => (Return (nextTxn w),
            record (EReadTxn stores (nextTxn w))
              (with_storage (operationsStore w) (openTxns w) (S (nextTxn w)) w)).

Definition readWriteTxn (stores : list StoreName) : Async TxnId :=
  fun w => (Return (nextTxn w),
            record (EReadWriteTxn stores (nextTxn w))
              (with_storage (operationsStore w) (<[nextTxn w := []]> (openTxns w))
                 (S (nextTxn w)) w)).

Definition txn_complete (txn : TxnId) : Async unit :=
  fun w => (Return tt,
            record (ETxnComplete txn)
              (with_storage
                 (fold_left applyWrite (default [] (openTxns w !! txn))
                    (operationsStore w))
                 (delete txn (openTxns w)) (nextTxn w) w)).

Definition txn_abort (txn : TxnId) : Async unit :=
  fun w => (Return tt,
            record (ETxnAbort txn)
              (with_storage (operationsStore w) (delete txn (openTxns w))
                 (nextTxn w) w)).

Definition getAllByTypeAndScope (txn : TxnId) (ty : string) (sc : RoomId)
    : Async (list Operation) :=
  fun w => (Return (filter (fun operation =>
                               type operation = ty /\ scope operation = sc)
                      (map_to_list (operationsStore w)).*2),
            record (EGetAllByTypeAndScope txn ty sc) w).

Section RoomEncryption.

Context (env : Env).

(** txn.operations.add / update / remove *)
Definition txn_operations (txn : TxnId) (write : OperationsWrite) : Async unit :=
  fun w =>
    match operations_throws env w write with
    | Some err => (Throw err, record (EOperations txn write) w)
    | None =>
        (Return tt,
         record (EOperations txn write)
           (with_storage (operationsStore w)
              (<[txn := default [] (openTxns w !! txn) ++ [write]]> (openTxns w))
              (nextTxn w) w))
    end.

(** ** RoomEncryption *)

Definition dispose : Async unit :=
  modify (with_disposed true) ;;;
  emit (ECacheDispose megolmBackfillCache) ;;;
  emit (ECacheDispose megolmSyncCache).

(** What happens to the world while the task is suspended. *)
Definition suspended (w : World) : World :=
  if disposedWhileSuspended env w then (dispose w).2 else w.

Definition await {A} (m : Async A) : Async A :=
  fun w => match m w with (c, w') => (c, suspended w') end.

(** log.wrap(label, callback): a child log item, then the callback; what
    the callback throws is rethrown. *)
Definition log_wrap {A} (label : string) (callback : Async A) : Async A :=
  emit (ELogWrap label) ;;; callback.

(** The argument is a backup client; only its presence is kept. *)
Definition enableSessionBackup : Async unit :=
  has <- get _sessionBackup ;;
  if has then ret tt else modify (with_sessionBackup true).

Definition _writeRoomKeyShareOperation (roomKeyMessage : RoomKeyMessage)
    (userIds : option (list UserId)) (txn : TxnId) : Async Operation :=
  id <- get (random_operationId env) ;;
  let operation :=
    mkOperation id "share_room_key" (room_id_of env) userIds roomKeyMessage in
  txn_operations txn (OpAdd operation) ;;;
  ret operation.

Definition _addShareRoomKeyOperationForNewMembers
    (memberChangesArray : list MemberChange) (txn : TxnId) : Async bool :=
  let userIds := map userId (List.filter hasJoined memberChangesArray) in
  roomKeyMessage <-
    await (call (ECreateRoomKeyMessage (room_id_of env) txn)
             (fun w => Return (createRoomKeyMessage (_megolmEncryption env) w txn))) ;;
  match roomKeyMessage with
  | Some roomKeyMessage =>
      emit (ELogLog "share key for new members"
              [("userIds", LList userIds);
               ("id", LText (Some (session_id roomKeyMessage)));
               ("chain_index", LNum (chain_index roomKeyMessage))]) ;;;
      _writeRoomKeyShareOperation roomKeyMessage (Some userIds) txn ;;;
      ret true
  | None => ret false
  end.

(** [memberChanges] is a Map by user id; the method reads only its values,
    in insertion order.  The result is [undefined] ([None]), [true] or
    [false]. *)
Definition writeMemberChanges (memberChanges : list MemberChange) (txn : TxnId)
    : Async (option bool) :=
  let memberChangesArray := memberChanges in
  when (existsb hasLeft memberChangesArray)
    (emit (ELogLog "discardOutboundSession"
             [("leftUsers", LList (map userId (List.filter hasLeft memberChangesArray)))]) ;;;
     emit (EDiscardOutboundSession (room_id_of env) txn)) ;;;
  shouldFlush <-
    (if existsb hasJoined memberChangesArray
     then b <- await (_addShareRoomKeyOperationForNewMembers memberChangesArray txn) ;;
          ret (Some b)
     else ret None) ;;
  await (emit (EDeviceTrackerWriteMemberChanges (room_id_of env) memberChanges txn)) ;;;
  ret shouldFlush.

Definition needsToShareKeys (memberChanges : list MemberChange) : bool :=
  existsb hasJoined memberChanges.

Definition _updateOperationsStore (callback : TxnId -> Async unit) : Async unit :=
  writeTxn <- await (readWriteTxn [storeNames_operations]) ;;
  tryCatch (callback writeTxn)
    (fun err => txn_abort writeTxn ;;; throw err) ;;;
  await (txn_complete writeTxn).

Definition _sendSharedMessageToDevices (type : string) (message : Content)
    (devices : list Device) : Async unit :=
  let devicesByUser := groupBy devices device_userId in
  let payload := payloadOf deviceId (fun _ => message) devicesByUser in
  txnId <- get (makeTxnId env) ;;
  await (call (ESendToDevice type payload txnId)
           (fun w => sendToDevice env w type payload)).

Definition _sendMessagesToDevices (type : string) (messages : list OlmMessage)
    : Async unit :=
  emit (ELogSet "messages" (LNum (length messages))) ;;;
  let messagesByUser := groupBy messages (fun message => device_userId (device message)) in
  let payload :=
    payloadOf (fun message => deviceId (device message)) content messagesByUser in
  txnId <- get (makeTxnId env) ;;
  await (call (ESendToDevice type payload txnId)
           (fun w => sendToDevice env w type payload)).

(** The operation object is mutated in place ([operation.userIds = ...]);
    the embedding threads the current value. *)
Definition _processShareRoomKeyOperation (operation : Operation) : Async unit :=
  emit (ELogSet "id" (LText (Some (id operation)))) ;;;
  await (call (ETrackRoom (room_id_of env)) (trackRoom (_deviceTracker env))) ;;;
  resolved <-
    match userIds operation with
    | None =>
        devices <- await (call (EDevicesForTrackedRoom (room_id_of env))
                            (devicesForTrackedRoom (_deviceTracker env))) ;;
        let userIds := deviceOwners devices in
        let operation := setUserIds operation userIds in
        await (_updateOperationsStore
                 (fun operations => txn_operations operations (OpUpdate operation))) ;;;
        ret (operation, devices)
    | Some userIds =>
        devices <- await (call (EDevicesForRoomMembers (room_id_of env) userIds)
                            (fun w => devicesForRoomMembers (_deviceTracker env) w userIds)) ;;
        ret (operation, devices)
    end ;;
  let operation := resolved.1 in
  let devices := resolved.2 in
  messages <-
    await (log_wrap "olm encrypt"
             (call (EOlmEncrypt "m.room_key" (roomKeyMessage operation) devices)
                (fun w => olm_encrypt env w (roomKeyMessage operation) devices))) ;;
  let missingDevices := missingDevicesOf devices messages in
  await (log_wrap "send" (_sendMessagesToDevices ENCRYPTED_TYPE messages)) ;;;
  when (negb (Nat.eqb (length missingDevices) 0))
    (await (log_wrap "missingDevices"
       (emit (ELogSet "devices" (LList (map deviceId missingDevices))) ;;;
        let unsentUserIds :=
          unsentUserIdsOf (default [] (userIds operation)) missingDevices in
        emit (ELogSet "unsentUserIds" (LList unsentUserIds)) ;;;
        let operation := setUserIds operation unsentUserIds in
        await (_updateOperationsStore
                 (fun operations => txn_operations operations (OpUpdate operation))) ;;;
        withheldMessage <-
          call (ECreateWithheldMessage (roomKeyMessage operation) "m.no_olm" "OTKs exhausted")
            (fun _ => Return (createWithheldMessage (_megolmEncryption env)
                                (roomKeyMessage operation) "m.no_olm" "OTKs exhausted")) ;;
        await (_sendSharedMessageToDevices "org.matrix.room_key.withheld"
                 withheldMessage missingDevices)))) ;;;
  await (_updateOperationsStore
           (fun operations => txn_operations operations (OpRemove (id operation)))).

Definition _shareNewRoomKey (roomKeyMessage : RoomKeyMessage) : Async unit :=
  writeOpTxn <- await (readWriteTxn [storeNames_operations]) ;;
  operation <-
    tryCatch (_writeRoomKeyShareOperation roomKeyMessage None writeOpTxn)
      (fun err => txn_abort writeOpTxn ;;; throw err) ;;
  await (_processShareRoomKeyOperation operation).

(** ** Decryption *)

Definition unsupportedAlgorithm (event : Event) : Err :=
  Error ("Unsupported algorithm: " +:+ default "undefined" (content_algorithm event)).

(** The loop at the head of [prepareDecryptAll]: the errors map and the
    [validEvents] array after the events seen so far. *)
Definition prepareDecryptAll_step (acc : gmap string Err * list Event)
    (event : Event) : gmap string Err * list Event :=
  let errors := acc.1 in
  let validEvents := acc.2 in
  if redacted_because event || unsigned_redacted_because event then
    (errors, validEvents)
  else
    let errors :=
      if bool_decide (content_algorithm event ≠ Some (MEGOLM_ALGORITHM env))
      then <[event_id event := unsupportedAlgorithm event]> errors
      else errors in
    (errors, validEvents ++ [event]).

(** The wrappers around the engine's pipeline objects.  The engine's
    preparation is represented by the events it was handed. *)
Record DecryptionPreparation := mkDecryptionPreparation {
  _megolmDecryptionPreparation : list Event;
  prep_extraErrors : gmap string Err;
  prep_source : DecryptionSource;
  prep_events : list Event
}.

Record DecryptionChanges := mkDecryptionChanges {
  _megolmDecryptionChanges : list Event;
  _extraErrors : gmap string Err;
  _source : DecryptionSource;
  _events : list Event
}.

Record BatchDecryptionResult := mkBatchDecryptionResult {
  results : gmap string DecryptionResult;
  errors : gmap string Err
}.

Definition prepareDecryptAll (events : list Event) (source : DecryptionSource)
    (txn : TxnId) : Async DecryptionPreparation :=
  let looped := fold_left prepareDecryptAll_step events (∅, []) in
  let errors := looped.1 in
  let validEvents := looped.2 in
  sessionCache <-
    match source with
    | Sync => ret megolmSyncCache
    | Timeline => ret megolmBackfillCache
    | Retry => emit ECreateSessionCache ;;; ret customCache
    | OtherSource s => throw (Error ("Unknown source: " +:+ s))
    end ;;
  preparation <-
    await (call (EMegolmPrepareDecryptAll (room_id_of env) validEvents sessionCache txn)
             (fun _ => Return validEvents)) ;;
  when (match sessionCache with customCache => true | _ => false end)
    (emit (ECacheDispose customCache)) ;;;
  ret (mkDecryptionPreparation preparation errors source events).

Definition decrypt (preparation : DecryptionPreparation) : Async DecryptionChanges :=
  changes <- await (call EMegolmDecrypt
                      (fun _ => Return (_megolmDecryptionPreparation preparation))) ;;
  ret (mkDecryptionChanges changes (prep_extraErrors preparation)
         (prep_source preparation) (prep_events preparation)).

(** log.wrapDetached(label, callback): the callback runs as a task of its
    own; what it throws goes to the log, not to the caller. *)
Definition log_wrapDetached (label : string) (callback : Async unit) : Async unit :=
  emit (ELogWrapDetached label) ;;;
  (fun w => (Return tt, (callback w).2)).

Definition isNotFound (err : Err) : bool :=
  String.eqb (err_name err) "HomeServerError"
  && bool_decide (err_errcode err = Some "M_NOT_FOUND").

(** JS truthiness of an optional string *)
Definition truthy (s : option string) : bool :=
  match s with
  | Some s => negb (String.eqb s EmptyString)
  | None => false
  end.

Definition _requestMissingSessionFromBackup (senderKey sessionId : option string)
    : Async unit :=
  has <- get _sessionBackup ;;
  if negb has then
    emit (ELogSet "enabled" (LBool false)) ;;;
    emit ENotifyMissingMegolmSession
  else
    emit (ELogSet "id" (LText sessionId)) ;;;
    emit (ELogSet "senderKey" (LText senderKey)) ;;;
    tryCatch
      (session <- await (call (EGetSession (room_id_of env) sessionId)
                           (fun w => getSession env w sessionId)) ;;
       (* session?.algorithm and session["sender_key"] *)
       let session_algorithm := session ≫= algorithm in
       let session_sender_key := session ≫= sender_key in
       if bool_decide (session_algorithm = Some (MEGOLM_ALGORITHM env)) then
         if bool_decide (session_sender_key ≠ senderKey) then
           emit (ELogSet "wrong_sender_key" (LText session_sender_key)) ;;;
           emit (ELogLevel LevelWarn)
         else
           roomKey <- call (ERoomKeyFromBackup (room_id_of env) sessionId session)
                        (fun w => Return (roomKeyFromBackup (_megolmDecryption env) w
                                            sessionId session)) ;;
           match roomKey with
           | Some roomKey =>
               keyIsBestOne <-
                 tryFinally
                   (txn <- await (readWriteTxn [storeNames_inboundGroupSessions]) ;;
                    keyIsBestOne <-
                      tryCatch
                        (keyIsBestOne <-
                           await (call (EWriteRoomKey roomKey txn)
                                    (fun w => writeRoomKey (_megolmDecryption env) w roomKey)) ;;
                         emit (ELogSet "isBetter" (LBool keyIsBestOne)) ;;;
                         ret keyIsBestOne)
                        (fun err => txn_abort txn ;;; throw err) ;;
                    await (txn_complete txn) ;;;
                    ret keyIsBestOne)
                   (emit (ERoomKeyDispose roomKey)) ;;
               let retryEventIds := eventIds roomKey in
               when keyIsBestOne
                 (await (log_wrap "retryDecryption"
                    (call (ENotifyRoomKey roomKey (default [] retryEventIds))
                       (fun w => notifyRoomKey env w roomKey
                                   (default [] retryEventIds)))))
           | None => ret tt
           end
       else if truthy session_algorithm then
         emit (ELogSet "unknown algorithm" (LText session_algorithm))
       else ret tt)
      (fun err =>
         if negb (isNotFound err) then
           emit (ELogSet "not_found" (LBool true))
         else
           emit (ELogError err) ;;;
           emit (ELogLevel LevelError)).

(** Promise.all(groups.map(async group => ...hasSession(..., txn)...)): the
    runtime starts every callback, so the calls are made in array order
    before any of them is answered. *)
Fixpoint hasSessions (txn : TxnId) (groups : list SessionKeyGroup)
    : Async (list bool) :=
  match groups with
  | [] => ret []
  | group :: rest =>
      has <- call (EHasSession (room_id_of env) (group_senderKey group)
                     (group_sessionId group) txn)
               (fun w => Return (hasSession (_megolmDecryption env) w
                                   (group_senderKey group) (group_sessionId group))) ;;
      others <- hasSessions txn rest ;;
      ret (has :: others)
  end.

Definition isMissingSession (errors : gmap string Err) (event : Event) : bool :=
  match errors !! event_id event with
  | Some error => bool_decide (err_code error = Some "MEGOLM_NO_SESSION")
  | None => false
  end.

Definition _processDecryptionResults (events : list Event)
    (results : gmap string DecryptionResult) (errors : gmap string Err)
    (source : DecryptionSource) (txn : TxnId) : Async unit :=
  let missingSessionEvents := List.filter (isMissingSession errors) events in
  if Nat.eqb (length missingSessionEvents) 0 then ret tt
  else
    let missingEventsBySession := groupEventsBySession missingSessionEvents in
    when (isSync source)
      (await (forEach (map snd missingEventsBySession)
         (fun group =>
            let eventIds := map event_id (group_events group) in
            emit (EAddMissingKeyEventIds (room_id_of env) (group_senderKey group)
                    (group_sessionId group) eventIds txn)))) ;;;
    has <- get _sessionBackup ;;
    if negb has then ret tt
    else
      log_wrapDetached "check key backup"
        (emit (ELogSet "source" (LSource source)) ;;;
         emit (ELogSet "events" (LNum (length missingSessionEvents))) ;;;
         emit (ELogSet "sessions" (LNum (length missingEventsBySession))) ;;;
         remaining <-
           (if isSync source then
              await (emit (ECreateTimeout 10000)) ;;;
              disposed <- get _disposed ;;
              if disposed then ret None
              else
                txn <- await (readTxn [storeNames_inboundGroupSessions]) ;;
                received <- await (hasSessions txn (map snd missingEventsBySession)) ;;
                (* missingEventsBySession.delete(key) for the sessions received *)
                ret (Some (map fst (List.filter (fun entry => negb entry.2)
                                      (combine missingEventsBySession received))))
            else ret (Some missingEventsBySession)) ;;
         match remaining with
         | None => ret tt
         | Some missingEventsBySession =>
             await (forEach (map snd missingEventsBySession)
               (fun group =>
                  log_wrap "session"
                    (_requestMissingSessionFromBackup (group_senderKey group)
                       (group_sessionId group))))
         end).

Definition write (changes : DecryptionChanges) (txn : TxnId)
    : Async BatchDecryptionResult :=
  written <-
    await (call (EMegolmWrite txn)
             (fun w => Return (changes_write (_megolmDecryption env) w
                                 (_megolmDecryptionChanges changes)))) ;;
  let results := written.1 in
  let errors := mergeMap (_extraErrors changes) written.2 in
  await (_processDecryptionResults (_events changes) results errors
           (_source changes) txn) ;;;
  ret (mkBatchDecryptionResult results errors).

(** A timeline entry as [restoreMissingSessionsFromBackup] reads it. *)
Record Entry := mkEntry {
  isEncrypted : bool;
  isDecrypted : bool;
  entry_event : option Event
}.

Definition restoreMissingSessionsFromBackup (entries : list Entry) : Async unit :=
  let events :=
    omap (fun e => if isEncrypted e && negb (isDecrypted e) then entry_event e
                   else None) entries in
  let eventsBySession := groupEventsBySession events in
  let groups := map snd eventsBySession in
  txn <- await (readTxn [storeNames_inboundGroupSessions]) ;;
  has <- await (hasSessions txn groups) ;;
  let missingSessions :=
    map fst (List.filter (fun gh => negb gh.2) (combine groups has)) in
  forEach (rev missingSessions)
    (fun session =>
       await (log_wrap "session"
                (_requestMissingSessionFromBackup (group_senderKey session)
                   (group_sessionId session)))).

(** An absent or null [operations] argument is [None]. *)
Definition flushPendingRoomKeyShares (operations : option (list Operation))
    : Async unit :=
  flushing <- get _isFlushingRoomKeyShares ;;
  if flushing then ret tt
  else
    modify (with_isFlushingRoomKeyShares true) ;;;
    tryFinally
      (operations <-
         match operations with
         | Some operations => ret operations
         | None =>
             txn <- await (readTxn [storeNames_operations]) ;;
             await (getAllByTypeAndScope txn "share_room_key" (room_id_of env))
         end ;;
       forEach operations
         (fun operation =>
            if negb (String.eqb (type operation) "share_room_key") then ret tt
            else await (log_wrap "operation" (_processShareRoomKeyOperation operation))))
      (modify (with_isFlushingRoomKeyShares false)).

End RoomEncryption.

(** The three stages in the order in which a batch goes through them:
    [prepareDecryptAll], then [DecryptionPreparation.decrypt], then
    [DecryptionChanges.write], all in the transaction [txn]. *)
Definition decryptAndWrite (env : Env) (events : list Event)
    (source : DecryptionSource) (txn : TxnId) : Async BatchDecryptionResult :=
  preparation <- prepareDecryptAll env events source txn ;;
  changes <- decrypt env preparation ;;
  write env changes txn.

(** ** Reading the history *)

Definition isDiscardOutboundSession (e : Effect) : bool :=
  match e with EDiscardOutboundSession _ _ => true | _ => false end.

Definition isCacheDispose (e : Effect) : bool :=
  match e with ECacheDispose _ => true | _ => false end.

Definition isSendToDevice (e : Effect) : bool :=
  match e with ESendToDevice _ _ _ => true | _ => false end.

Definition isSendOf (ty : string) (e : Effect) : bool :=
  match e with ESendToDevice ty' _ _ => String.eqb ty ty' | _ => false end.

Definition isWriteRoomKey (e : Effect) : bool :=
  match e with EWriteRoomKey _ _ => true | _ => false end.

Definition isNotifyRoomKey (e : Effect) : bool :=
  match e with ENotifyRoomKey _ _ => true | _ => false end.

Definition isReadWriteTxn (e : Effect) : bool :=
  match e with EReadWriteTxn _ _ => true | _ => false end.

Definition isRoomKeyFromBackup (e : Effect) : bool :=
  match e with ERoomKeyFromBackup _ _ _ => true | _ => false end.

Definition isGetSession (e : Effect) : bool :=
  match e with EGetSession _ _ => true | _ => false end.

Definition isNotifyMissingMegolmSession (e : Effect) : bool :=
  match e with ENotifyMissingMegolmSession => true | _ => false end.

Definition isLogLevel (level : LogLevel) (e : Effect) : bool :=
  match e, level with
  | ELogLevel LevelWarn, LevelWarn => true
  | ELogLevel LevelError, LevelError => true
  | _, _ => false
  end.

Definition isTxnComplete (e : Effect) : bool :=
  match e with ETxnComplete _ => true | _ => false end.

(** The operations handed to [txn.operations.add], with their transaction. *)
Definition operationsAdded (es : list Effect) : list (TxnId * Operation) :=
  omap (fun e => match e with
                 | EOperations txn (OpAdd operation) => Some (txn, operation)
                 | _ => None
                 end) es.

(** [write] is made in a transaction that is then completed, and no call
    satisfying [P] is made before that completion. *)
Definition committedBefore (write : OperationsWrite) (P : Effect -> bool)
    (es : list Effect) : Prop :=
  exists txn before between after,
    es = before ++ EOperations txn write :: between ++ ETxnComplete txn :: after
    /\ existsb P (before ++ EOperations txn write :: between) = false.

(** The calls [tail] close the history [es]; only calls of another task's
    [dispose()] may follow them. *)
Definition closes (tail es : list Effect) : Prop :=
  exists before ds, es = before ++ tail ++ ds /\ forallb isCacheDispose ds = true.

(** The members of the group with key [k]. *)
Fixpoint groupOf {K A} `{EqDecision K} (k : K) (groups : list (K * list A))
    : option (list A) :=
  match groups with
  | [] => None
  | (k', members) :: rest => if decide (k' = k) then Some members else groupOf k rest
  end.

Definition isShareRoomKey (operation : Operation) : bool :=
  String.eqb (type operation) "share_room_key".

(** The world after a suspension during which [dispose()] may have run:
    [ds] are the calls it made, [b] is the flag afterwards. *)
Definition interrupted (ds : list Effect) (b : bool) (w : World) : World :=
  with_disposed b (with_trace (trace w ++ ds) w).

(** Weakest precondition of a method run from [w]. *)
Definition wp {A} (m : Async A) (w : World)
    (Q : Completion A -> World -> Prop) : Prop :=
  Q (m w).1 (m w).2.

(** ** Example collaborators and inputs *)

Definition exampleRoomKeyMessage : RoomKeyMessage :=
  mkRoomKeyMessage "!room:example.org" "session1" "key material" 0.

(** No outbound session. *)
Definition quietEncryption : MegolmEncryption := {|
  createRoomKeyMessage := fun _ _ => None;
  createWithheldMessage := fun _ code reason => code +:+ ": " +:+ reason
|}.

(** An outbound session is in place. *)
Definition outboundEncryption : MegolmEncryption := {|
  createRoomKeyMessage := fun _ _ => Some exampleRoomKeyMessage;
  createWithheldMessage := createWithheldMessage quietEncryption
|}.

(** An engine that finds nothing to decrypt and knows no session. *)
Definition quietDecryption : MegolmDecryption := {|
  changes_write := fun _ _ => (∅, ∅);
  hasSession := fun _ _ _ => false;
  roomKeyFromBackup := fun _ _ _ => None;
  writeRoomKey := fun _ _ => Return true
|}.

Definition quietTracker : DeviceTracker := {|
  trackRoom := fun _ => Return tt;
  devicesForTrackedRoom := fun _ => Return [];
  devicesForRoomMembers := fun _ _ => Return []
|}.

Definition exampleEnv (disposedWhileSuspended : World -> bool)
    (megolmEncryption : MegolmEncryption) (megolmDecryption : MegolmDecryption)
    (deviceTracker : DeviceTracker)
    (getSession : World -> option string -> Completion (option BackupSession))
    (encrypt : World -> RoomKeyMessage -> list Device -> Completion (list OlmMessage))
    (sendToDevice : World -> string -> Payload -> Completion unit) : Env := {|
  room_id_of := "!room:example.org";
  MEGOLM_ALGORITHM := "m.megolm.v1.aes-sha2";
  random_operationId := fun _ => "4711";
  makeTxnId := fun _ => "t0";
  disposedWhileSuspended := disposedWhileSuspended;
  operations_throws := fun _ _ => None;
  _megolmEncryption := megolmEncryption;
  _megolmDecryption := megolmDecryption;
  _deviceTracker := deviceTracker;
  getSession := getSession;
  notifyRoomKey := fun _ _ _ => Return tt;
  olm_encrypt := encrypt;
  sendToDevice := sendToDevice
|}.

(** Collaborators that never fail and have nothing to offer. *)
Definition quietEnv : Env :=
  exampleEnv (fun _ => false) quietEncryption quietDecryption quietTracker
    (fun _ _ => Return None) (fun _ _ _ => Return []) (fun _ _ _ => Return tt).

(** As [quietEnv], with an outbound session in place. *)
Definition outboundEnv : Env :=
  exampleEnv (fun _ => false) outboundEncryption quietDecryption quietTracker
    (fun _ _ => Return None) (fun _ _ _ => Return []) (fun _ _ _ => Return tt).

(** Three members: one stays, one joins, one leaves. *)
Definition exampleMemberChanges : list MemberChange :=
  [ mkMemberChange "@alice:example.org" false false;
    mkMemberChange "@bob:example.org" true false;
    mkMemberChange "@carol:example.org" false true ].

(** Three devices of two users; olm has a one-time key for the first only. *)
Definition alicePhone : Device := mkDevice "@alice:example.org" "APHONE".
Definition bobPhone : Device := mkDevice "@bob:example.org" "BPHONE".
Definition bobTablet : Device := mkDevice "@bob:example.org" "BTABLET".

Definition exampleDevices : list Device := [alicePhone; bobPhone; bobTablet].

Definition exampleMessages : list OlmMessage :=
  [mkOlmMessage alicePhone "ciphertext for APHONE"].

Definition shareEnv : Env :=
  exampleEnv (fun _ => false) outboundEncryption quietDecryption
    {| trackRoom := fun _ => Return tt;
       devicesForTrackedRoom := fun _ => Return exampleDevices;
       devicesForRoomMembers := fun _ _ => Return exampleDevices |}
    (fun _ _ => Return None) (fun _ _ _ => Return exampleMessages)
    (fun _ _ _ => Return tt).

Definition exampleOperation : Operation :=
  mkOperation "4711" "share_room_key" "!room:example.org" None exampleRoomKeyMessage.

(** An operation of another type, as a caller might pass it. *)
Definition foreignOperation : Operation :=
  mkOperation "4712" "not_a_key_share" "!room:example.org" None exampleRoomKeyMessage.

Definition connectionError : Err := mkErr "ConnectionError" None None "offline".

Definition notFoundError : Err :=
  mkErr "HomeServerError" (Some "M_NOT_FOUND") None "No room_keys found".

Definition noSessionError : Err :=
  mkErr "DecryptionError" None (Some "MEGOLM_NO_SESSION") "session not found".

(** The device list cannot be fetched: the network is down. *)
Definition offlineEnv : Env :=
  exampleEnv (fun _ => false) outboundEncryption quietDecryption
    {| trackRoom := fun _ => Return tt;
       devicesForTrackedRoom := fun _ => Throw connectionError;
       devicesForRoomMembers := fun _ _ => Throw connectionError |}
    (fun _ _ => Return None) (fun _ _ _ => Return [])
    (fun _ _ _ => Throw connectionError).

(** An event encrypted with olm, not megolm, and one encrypted with megolm. *)
Definition olmEvent : Event :=
  mkEvent "$e1" false false (Some "m.olm.v1.curve25519-aes-sha2")
    (Some "senderkey") (Some "session9").

Definition megolmEvent : Event :=
  mkEvent "$e2" false false (Some "m.megolm.v1.aes-sha2")
    (Some "senderkey") (Some "session9").

(** An engine that decrypts every event it is handed. *)
Definition decryptingEngine : MegolmDecryption := {|
  changes_write := fun _ validEvents =>
    (list_to_map
       (map (fun e => (event_id e, mkDecryptionResult "hello" "senderkey")) validEvents),
     ∅);
  hasSession := fun _ _ _ => true;
  roomKeyFromBackup := fun _ _ _ => None;
  writeRoomKey := fun _ _ => Return true
|}.

Definition decryptingEnv : Env :=
  exampleEnv (fun _ => false) quietEncryption decryptingEngine quietTracker
    (fun _ _ => Return None) (fun _ _ _ => Return []) (fun _ _ _ => Return tt).

(** An engine that has no session for any event it is handed; a key read
    from the backup is the best one known. *)
Definition exampleRoomKey : RoomKey :=
  mkRoomKey (Some "senderkey") (Some "session9") (Some ["$e2"]).

Definition sessionlessEngine : MegolmDecryption := {|
  changes_write := fun _ validEvents =>
    (∅, list_to_map (map (fun e => (event_id e, noSessionError)) validEvents));
  hasSession := fun _ _ _ => false;
  roomKeyFromBackup := fun _ _ _ => Some exampleRoomKey;
  writeRoomKey := fun _ _ => Return true
|}.

Definition sessionlessEnv : Env :=
  exampleEnv (fun _ => false) quietEncryption sessionlessEngine quietTracker
    (fun _ _ => Return None) (fun _ _ _ => Return []) (fun _ _ _ => Return tt).

(** Backup records: one for the session asked for, one of another algorithm
    and with another sender key. *)
Definition matchingBackupSession : BackupSession :=
  mkBackupSession (Some "m.megolm.v1.aes-sha2") (Some "senderkey") "backed up key".

Definition foreignBackupSession : BackupSession :=
  mkBackupSession (Some "m.olm.v1.curve25519-aes-sha2") (Some "intruder")
    "backed up key".

(** A megolm record of the session asked for, uploaded under another sender
    key. *)
Definition intruderBackupSession : BackupSession :=
  mkBackupSession (Some "m.megolm.v1.aes-sha2") (Some "intruder") "backed up key".

Definition intruderBackupEnv : Env :=
  exampleEnv (fun _ => false) quietEncryption sessionlessEngine quietTracker
    (fun _ _ => Return (Some intruderBackupSession))
    (fun _ _ _ => Return []) (fun _ _ _ => Return tt).

Definition foreignBackupEnv : Env :=
  exampleEnv (fun _ => false) quietEncryption sessionlessEngine quietTracker
    (fun _ _ => Return (Some foreignBackupSession))
    (fun _ _ _ => Return []) (fun _ _ _ => Return tt).

Definition notFoundBackupEnv : Env :=
  exampleEnv (fun _ => false) quietEncryption sessionlessEngine quietTracker
    (fun _ _ => Throw notFoundError)
    (fun _ _ _ => Return []) (fun _ _ _ => Return tt).

Definition unreachableBackupEnv : Env :=
  exampleEnv (fun _ => false) quietEncryption sessionlessEngine quietTracker
    (fun _ _ => Throw connectionError)
    (fun _ _ _ => Return []) (fun _ _ _ => Return tt).

(** [dispose()] is called while the request to the backup is in flight. *)
Definition disposedDuringGetSession (w : World) : bool :=
  match last (trace w) with
  | Some (EGetSession _ _) => true
  | _ => false
  end.

Definition tornDownEnv : Env :=
  exampleEnv disposedDuringGetSession quietEncryption sessionlessEngine quietTracker
    (fun _ _ => Return (Some matchingBackupSession))
    (fun _ _ _ => Return []) (fun _ _ _ => Return tt).

(** [dispose()] is called during the grace wait. *)
Definition disposedDuringTimeout (w : World) : bool :=
  match last (trace w) with
  | Some (ECreateTimeout _) => true
  | _ => false
  end.

Definition tornDownEarlyEnv : Env :=
  exampleEnv disposedDuringTimeout quietEncryption sessionlessEngine quietTracker
    (fun _ _ => Return (Some matchingBackupSession))
    (fun _ _ _ => Return []) (fun _ _ _ => Return tt).

(** The engine has no session when it decrypts, but the key has arrived by
    the time the grace wait is over. *)
Definition lateKeyEngine : MegolmDecryption := {|
  changes_write := changes_write sessionlessEngine;
  hasSession := fun _ _ _ => true;
  roomKeyFromBackup := roomKeyFromBackup sessionlessEngine;
  writeRoomKey := writeRoomKey sessionlessEngine
|}.

Definition lateKeyEnv : Env :=
  exampleEnv (fun _ => false) quietEncryption lateKeyEngine quietTracker
    (fun _ _ => Return (Some matchingBackupSession))
    (fun _ _ _ => Return []) (fun _ _ _ => Return tt).

(** A transaction opened by the caller; the ids that the storage hands out
    in the examples start at 0. *)
Definition callerTxn : nat := 99.

Definition isTxnCompleteOf (txn : nat) (e : Effect) : bool :=
  match e with ETxnComplete t => Nat.eqb t txn | _ => false end.

(** The milestones of the passes over operations that a history shows: a
    pass starts by putting the id of its operation on its log item, and its
    last step is the removal of the operation from the store. *)
Inductive PassMilestone :=
| PassStarted (operationId : string)
| RemovalRequested (operationId : string).

Definition passMilestones (es : list Effect) : list PassMilestone :=
  omap (fun e => match e with
                 | ELogSet key (LText (Some operationId)) =>
                     if String.eqb key "id" then Some (PassStarted operationId)
                     else None
                 | EOperations _ (OpRemove operationId) =>
                     Some (RemovalRequested operationId)
                 | _ => None
                 end) es.

(** The milestones of one pass that ran to its end. *)
Definition completedPass (operation : Operation) : list PassMilestone :=
  [PassStarted (id operation); RemovalRequested (id operation)].

(** ** More readers of the history *)

Definition isTxnAbort (e : Effect) : bool :=
  match e with ETxnAbort _ => true | _ => false end.

Definition isOperationsRemove (e : Effect) : bool :=
  match e with EOperations _ (OpRemove _) => true | _ => false end.

Definition isTrackRoom (e : Effect) : bool :=
  match e with ETrackRoom _ => true | _ => false end.

(** The transactions opened for writing, and those completed or aborted. *)
Definition txnsOpened (es : list Effect) : list nat :=
  omap (fun e => match e with EReadWriteTxn _ txn => Some txn | _ => None end) es.

Definition txnsClosed (es : list Effect) : list nat :=
  omap (fun e => match e with
                 | ETxnComplete txn | ETxnAbort txn => Some txn
                 | _ => None
                 end) es.



(** A backup that holds the session asked for; the engine cannot store the
    key read from it. *)
Definition storageError : Err := mkErr "StorageError" None None "quota exceeded".

Definition readOnlyEngine : MegolmDecryption := {|
  changes_write := changes_write sessionlessEngine;
  hasSession := hasSession sessionlessEngine;
  roomKeyFromBackup := roomKeyFromBackup sessionlessEngine;
  writeRoomKey := fun _ _ => Throw storageError
|}.

Definition readOnlyEnv : Env :=
  exampleEnv (fun _ => false) quietEncryption readOnlyEngine quietTracker
    (fun _ _ => Return (Some matchingBackupSession))
    (fun _ _ _ => Return []) (fun _ _ _ => Return tt).

(** The devices are known and olm encrypts for them, but the request to the
    home server fails. *)
Definition sendFailsEnv : Env :=
  exampleEnv (fun _ => false) outboundEncryption quietDecryption
    {| trackRoom := fun _ => Return tt;
       devicesForTrackedRoom := fun _ => Return exampleDevices;
       devicesForRoomMembers := fun _ _ => Return exampleDevices |}
    (fun _ _ => Return None) (fun _ _ _ => Return exampleMessages)
    (fun _ _ _ => Throw connectionError).

(** The store rejects every write. *)
Definition fullStoreEnv : Env := {|
  room_id_of := room_id_of shareEnv;
  MEGOLM_ALGORITHM := MEGOLM_ALGORITHM shareEnv;
  random_operationId := random_operationId shareEnv;
  makeTxnId := makeTxnId shareEnv;
  disposedWhileSuspended := disposedWhileSuspended shareEnv;
  operations_throws := fun _ _ => Some storageError;
  _megolmEncryption := _megolmEncryption shareEnv;
  _megolmDecryption := _megolmDecryption shareEnv;
  _deviceTracker := _deviceTracker shareEnv;
  getSession := getSession shareEnv;
  notifyRoomKey := notifyRoomKey shareEnv;
  olm_encrypt := olm_encrypt shareEnv;
  sendToDevice := sendToDevice shareEnv
|}.

(** A store that holds one pending key share of the room and one operation
    of another room. *)
Definition otherRoomOperation : Operation :=
  mkOperation "4713" "share_room_key" "!other:example.org" None exampleRoomKeyMessage.

Definition pendingWorld : World :=
  with_storage {[ "4711" := exampleOperation; "4713" := otherRoomOperation ]} ∅ 0
    (newWorld false).

(** The store after the loop of a flush in which every pass succeeds. *)
Definition withoutShares (operations : list Operation) (store : gmap string Operation)
    : gmap string Operation :=
  fold_left (fun store operation =>
               if isShareRoomKey operation then delete (id operation) store else store)
    operations store.


Definition isReadTxn (e : Effect) : bool :=
  match e with EReadTxn _ _ => true | _ => false end.



(** The sessions for which the backup was asked, in the order of the
    requests. *)
Definition sessionsRequested (es : list Effect) : list (option string) :=
  omap (fun e => match e with EGetSession _ sessionId => Some sessionId | _ => None end)
    es.

(** Timeline entries: one already decrypted, two undecrypted events of one
    session and one of another. *)
Definition laterEvent : Event :=
  mkEvent "$e3" false false (Some "m.megolm.v1.aes-sha2")
    (Some "senderkey") (Some "session10").

Definition exampleEntries : list Entry :=
  [ mkEntry true true (Some olmEvent);
    mkEntry true false (Some megolmEvent);
    mkEntry true false (Some laterEvent);
    mkEntry true false (Some megolmEvent) ].

(** ** Methods beside the two pipelines *)


(** What the megolm engine's [encrypt] answers, and the event that
    [RoomEncryption.encrypt] returns. *)
Record MegolmEncryptionResult := mkMegolmEncryptionResult {
  megolm_content : Content;
  megolm_roomKeyMessage : option RoomKeyMessage
}.

Record EncryptedEvent := mkEncryptedEvent {
  encrypted_type : string;
  encrypted_content : Content
}.

(** [megolmEncrypt] is this._megolmEncryption.encrypt for this room and its
    encryption parameters; the call is the body of the log item
    "megolm encrypt". *)
Definition encrypt (env : Env)
    (megolmEncrypt : World -> string -> Content -> MegolmEncryptionResult)
    (type : string) (content : Content) : Async EncryptedEvent :=
  megolmResult <-
    await env (log_wrap "megolm encrypt" (get (fun w => megolmEncrypt w type content))) ;;
  match megolm_roomKeyMessage megolmResult with
  | Some roomKeyMessage =>
      log_wrapDetached "share key" (_shareNewRoomKey env roomKeyMessage)
  | None => ret tt
  end ;;;
  ret (mkEncryptedEvent ENCRYPTED_TYPE (megolm_content megolmResult)).





Definition isCreateTimeout (e : Effect) : bool :=
  match e with ECreateTimeout _ => true | _ => false end.

Definition isHasSession (e : Effect) : bool :=
  match e with EHasSession _ _ _ _ => true | _ => false end.

Definition isCreateRoomKeyMessage (e : Effect) : bool :=
  match e with ECreateRoomKeyMessage _ _ => true | _ => false end.

(** The calls that put off asking the backup: recording the missing key,
    the grace wait, and the check of the storage for a key that arrived. *)
Definition delaysRecovery (e : Effect) : bool :=
  match e with
  | EAddMissingKeyEventIds _ _ _ _ _ | ECreateTimeout _ | EReadTxn _ _
  | EHasSession _ _ _ _ => true
  | _ => false
  end.

(** The megolm engine starts a new outbound session with every message, or
    with none. *)
Definition rotatingEncrypt (w : World) (type : string) (content : Content)
    : MegolmEncryptionResult :=
  mkMegolmEncryptionResult ("ciphertext of " +:+ content) (Some exampleRoomKeyMessage).

(** * Properties *)

(** ** Proof tools *)

Lemma wp_ret {A} (a : A) w (Q : Completion A -> World -> Prop) :
  Q (Return a) w -> wp (ret a) w Q.
Proof. exact (fun H => H). Qed.

Lemma wp_throw {A} e w (Q : Completion A -> World -> Prop) :
  Q (Throw e) w -> wp (throw e) w Q.
Proof. exact (fun H => H). Qed.

Lemma wp_bind {A B} (m : Async A) (k : A -> Async B) w Q :
  wp m w (fun c w' =>
            match c with
            | Return a => wp (k a) w' Q
            | Throw e => Q (Throw e) w'
            end) ->
  wp (bind m k) w Q.
Proof.
  unfold wp, bind. destruct (m w) as [[a|e] w']; simpl; auto.
Qed.

Lemma wp_tryCatch {A} (m : Async A) handler w Q :
  wp m w (fun c w' =>
            match c with
            | Return a => Q (Return a) w'
            | Throw e => wp (handler e) w' Q
            end) ->
  wp (tryCatch m handler) w Q.
Proof.
  unfold wp, tryCatch. destruct (m w) as [[a|e] w']; simpl; auto.
Qed.

Lemma wp_tryFinally {A} (m : Async A) fin w Q :
  wp m w (fun c w' =>
            wp fin w' (fun c' w'' =>
                         match c' with
                         | Return _ => Q c w''
                         | Throw e => Q (Throw e) w''
                         end)) ->
  wp (tryFinally m fin) w Q.
Proof.
  unfold wp, tryFinally. destruct (m w) as [c w']; simpl.
  destruct (fin w') as [[u|e] w'']; simpl; auto.
Qed.

Lemma wp_emit e w (Q : Completion unit -> World -> Prop) :
  Q (Return tt) (record e w) -> wp (emit e) w Q.
Proof. exact (fun H => H). Qed.

Lemma wp_call {A} e (answer : World -> Completion A) w Q :
  Q (answer w) (record e w) -> wp (call e answer) w Q.
Proof. exact (fun H => H). Qed.

Lemma wp_get {A} (f : World -> A) w Q :
  Q (Return (f w)) w -> wp (get f) w Q.
Proof. exact (fun H => H). Qed.

Lemma wp_modify f w (Q : Completion unit -> World -> Prop) :
  Q (Return tt) (f w) -> wp (modify f) w Q.
Proof. exact (fun H => H). Qed.

Lemma wp_txn_operations env txn write w (Q : Completion unit -> World -> Prop) :
  match operations_throws env w write with
  | Some err => Q (Throw err) (record (EOperations txn write) w)
  | None =>
      Q (Return tt)
        (record (EOperations txn write)
           (with_storage (operationsStore w)
              (<[txn := default [] (openTxns w !! txn) ++ [write]]> (openTxns w))
              (nextTxn w) w))
  end ->
  wp (txn_operations env txn write) w Q.
Proof.
  unfold wp, txn_operations. destruct (operations_throws env w write); auto.
Qed.

Lemma wp_readTxn stores w (Q : Completion nat -> World -> Prop) :
  Q (Return (nextTxn w))
    (record (EReadTxn stores (nextTxn w))
       (with_storage (operationsStore w) (openTxns w) (S (nextTxn w)) w)) ->
  wp (readTxn stores) w Q.
Proof. exact (fun H => H). Qed.

Lemma wp_readWriteTxn stores w (Q : Completion nat -> World -> Prop) :
  Q (Return (nextTxn w))
    (record (EReadWriteTxn stores (nextTxn w))
       (with_storage (operationsStore w) (<[nextTxn w := []]> (openTxns w))
          (S (nextTxn w)) w)) ->
  wp (readWriteTxn stores) w Q.
Proof. exact (fun H => H). Qed.

Lemma wp_txn_complete txn w (Q : Completion unit -> World -> Prop) :
  Q (Return tt)
    (record (ETxnComplete txn)
       (with_storage
          (fold_left applyWrite (default [] (openTxns w !! txn)) (operationsStore w))
          (delete txn (openTxns w)) (nextTxn w) w)) ->
  wp (txn_complete txn) w Q.
Proof. exact (fun H => H). Qed.

Lemma wp_txn_abort txn w (Q : Completion unit -> World -> Prop) :
  Q (Return tt)
    (record (ETxnAbort txn)
       (with_storage (operationsStore w) (delete txn (openTxns w)) (nextTxn w) w)) ->
  wp (txn_abort txn) w Q.
Proof. exact (fun H => H). Qed.

(** A suspension adds at most the calls of one [dispose()] and can only
    raise the flag. *)
Lemma suspended_interrupted env w :
  exists ds b,
    suspended env w = interrupted ds b w
    /\ forallb isCacheDispose ds = true
    /\ implb (_disposed w) b = true.
Proof.
  unfold suspended. destruct (disposedWhileSuspended env w).
  - exists [ECacheDispose megolmBackfillCache; ECacheDispose megolmSyncCache], true.
    repeat split.
    + unfold interrupted, dispose, bind, modify, emit, record, with_trace, with_disposed.
      simpl. by rewrite <- app_assoc.
    + by destruct (_disposed w).
  - exists [], (_disposed w). repeat split.
    + unfold interrupted, with_trace, with_disposed. rewrite app_nil_r. by destruct w.
    + by destruct (_disposed w).
Qed.

Lemma wp_await env {A} (m : Async A) w Q :
  wp m w (fun c w' =>
            forall ds b,
              forallb isCacheDispose ds = true ->
              implb (_disposed w') b = true ->
              Q c (interrupted ds b w')) ->
  wp (await env m) w Q.
Proof.
  unfold wp, await. destruct (m w) as [c w']; simpl. intros H.
  destruct (suspended_interrupted env w') as (ds & b & -> & Hds & Hb). auto.
Qed.

Lemma since_extend w w' es : trace w' = trace w ++ es -> since w w' = es.
Proof. unfold since. intros ->. apply drop_app_length. Qed.

Lemma existsb_interruption (P : Effect -> bool) ds :
  forallb isCacheDispose ds = true ->
  (forall c, P (ECacheDispose c) = false) ->
  existsb P ds = false.
Proof.
  intros Hds HP. induction ds as [|e ds IH]; [done|].
  simpl in *. apply andb_prop in Hds as [He Hds].
  rewrite (IH Hds), orb_false_r. destruct e; try discriminate. apply HP.
Qed.

Lemma operationsAdded_interruption ds :
  forallb isCacheDispose ds = true -> operationsAdded ds = [].
Proof.
  induction ds as [|e ds IH]; [done|]. simpl. intros [He Hds]%andb_prop.
  unfold operationsAdded in *. simpl. destruct e; try discriminate. auto.
Qed.

Lemma operationsAdded_app es1 es2 :
  operationsAdded (es1 ++ es2) = operationsAdded es1 ++ operationsAdded es2.
Proof. apply omap_app. Qed.

Lemma committedBefore_app write P l es :
  existsb P l = false ->
  committedBefore write P es -> committedBefore write P (l ++ es).
Proof.
  intros Hl (txn & before & between & after & -> & Hfree).
  exists txn, (l ++ before), between, after. split; [by rewrite <- app_assoc|].
  rewrite <- app_assoc, existsb_app, Hl. exact Hfree.
Qed.

Lemma committedBefore_here write P txn after :
  P (EOperations txn write) = false ->
  committedBefore write P ([EOperations txn write] ++ [ETxnComplete txn] ++ after).
Proof.
  intros HP. exists txn, [], [], after. split; [reflexivity|].
  simpl. by rewrite HP.
Qed.

Lemma closes_app tail l es : closes tail es -> closes tail (l ++ es).
Proof.
  intros (before & ds & -> & Hds). exists (l ++ before), ds.
  split; [by rewrite <- app_assoc|done].
Qed.

Lemma closes_pair a b ds1 ds2 :
  forallb isCacheDispose ds1 = true -> forallb isCacheDispose ds2 = true ->
  closes [a; b] ([a] ++ [b] ++ ds1 ++ ds2).
Proof.
  intros H1 H2. exists [], (ds1 ++ ds2). split; [reflexivity|].
  by rewrite forallb_app, H1, H2.
Qed.

(** Normalises a world built from the primitives to its fields. *)
Ltac wsimpl :=
  cbn [fst snd trace _sessionBackup _isFlushingRoomKeyShares _disposed
       operationsStore openTxns nextTxn record with_trace with_sessionBackup
       with_isFlushingRoomKeyShares with_disposed with_storage interrupted].

(** Names the values drawn from the random sources, so that the worlds
    they were drawn in do not pile up in the goal. *)
Ltac forget_oracles :=
  repeat match goal with
  | |- context [random_operationId ?env ?w] =>
      let x := fresh "operationId" in generalize (random_operationId env w); intro x
  | |- context [makeTxnId ?env ?w] =>
      let x := fresh "txnId" in generalize (makeTxnId env w); intro x
  end.

(** One step of symbolic execution. *)
Ltac wp_step :=
  lazymatch goal with
  | |- wp (bind _ _) _ _ => apply wp_bind
  | |- wp (ret _) _ _ => apply wp_ret
  | |- wp (throw _) _ _ => apply wp_throw
  | |- wp (emit _) _ _ => apply wp_emit
  | |- wp (call _ _) _ _ => apply wp_call
  | |- wp (get _) _ _ => apply wp_get
  | |- wp (modify _) _ _ => apply wp_modify
  | |- wp (tryCatch _ _) _ _ => apply wp_tryCatch
  | |- wp (tryFinally _ _) _ _ => apply wp_tryFinally
  | |- wp (await _ _) _ _ => apply wp_await
  | |- wp (txn_operations _ _ _) _ _ => apply wp_txn_operations
  | |- wp (readTxn _) _ _ => apply wp_readTxn
  | |- wp (readWriteTxn _) _ _ => apply wp_readWriteTxn
  | |- wp (txn_complete _) _ _ => apply wp_txn_complete
  | |- wp (txn_abort _) _ _ => apply wp_txn_abort
  | |- wp (log_wrap _ _) _ _ => unfold log_wrap
  | |- wp (when _ _) _ _ => unfold when
  | |- forall ds b, forallb isCacheDispose ds = true -> _ =>
      let ds := fresh "ds" in let b := fresh "b" in
      let Hds := fresh "Hds" in intros ds b Hds _
  end; cbv beta; wsimpl; forget_oracles;
  repeat (rewrite lookup_insert_eq); cbn [from_option Datatypes.id app].

(** Turns a goal about the two components of a run into a [wp] goal. *)
Ltac to_wp :=
  cbv zeta; unfold run;
  match goal with
  | |- context [(?m ?w).2] =>
      pattern ((m w).1), ((m w).2);
      match goal with |- ?Q _ _ => change (wp m w Q) end
  end.

Ltac since_trace :=
  repeat match goal with
  | |- context [since ?w ?w'] =>
      erewrite (since_extend w w') by (wsimpl; rewrite <- ?app_assoc; reflexivity)
  end.

Ltac in_trace :=
  repeat (apply in_or_app; first [left; solve [left; reflexivity] | right]);
  solve [left; reflexivity].

Ltac no_effect :=
  rewrite ?existsb_app;
  cbn [existsb orb isSendOf isSendToDevice isDiscardOutboundSession
       isWriteRoomKey isNotifyRoomKey isReadWriteTxn isRoomKeyFromBackup
       isGetSession isNotifyMissingMegolmSession isLogLevel isTxnComplete
       String.eqb Ascii.eqb Bool.eqb ENCRYPTED_TYPE];
  repeat (rewrite existsb_interruption by (assumption || reflexivity));
  reflexivity.

Ltac committed :=
  repeat lazymatch goal with
  | |- committedBefore ?w _ ([EOperations _ ?w] ++ _) =>
      apply committedBefore_here; reflexivity
  | |- committedBefore _ _ (_ ++ _) => apply committedBefore_app; [no_effect|]
  end.

Ltac closing :=
  repeat first [ apply closes_pair; assumption | apply closes_app ].

Ltac added :=
  rewrite ?operationsAdded_app; simpl;
  rewrite ?operationsAdded_interruption by assumption; reflexivity.

(** Symbolic execution through every outcome of every collaborator. *)
Ltac wp_run :=
  repeat first
    [ wp_step
    | match goal with
      | |- match ?x with Return _ => _ | Throw _ => _ end => destruct x
      | |- match ?x with Some _ => _ | None => _ end => destruct x
      | |- wp (if ?b then _ else _) _ _ => destruct b
      | |- wp (match ?x with Some _ => _ | None => _ end) _ _ => destruct x
      end ].

Lemma bind_get {A B} (f : World -> A) (k : A -> Async B) w :
  bind (get f) k w = k (f w) w.
Proof. reflexivity. Qed.

Lemma bind_modify {B} f (k : unit -> Async B) w :
  bind (modify f) k w = k tt (f w).
Proof. reflexivity. Qed.

Lemma tryFinally_modify {A} (m : Async A) f w :
  tryFinally m (modify f) w = ((m w).1, f (m w).2).
Proof. unfold tryFinally, modify. by destruct (m w). Qed.

(** A loop that skips some elements is the loop over the others. *)
Lemma forEach_skip {A} (keep : A -> bool) (body : A -> Async unit) xs w :
  forEach xs (fun x => if negb (keep x) then ret tt else body x) w
  = forEach (List.filter keep xs) body w.
Proof.
  revert w. induction xs as [|x xs IH]; intros w; [reflexivity|].
  simpl. destruct (keep x); simpl.
  - unfold bind. destruct (body x w) as [[[]|e] w']; [apply IH|reflexivity].
  - unfold bind, ret. apply IH.
Qed.

Lemma forEach_emit {A} (f : A -> Effect) xs w :
  forEach xs (fun x => emit (f x)) w
  = (Return tt, with_trace (trace w ++ map f xs) w).
Proof.
  revert w. induction xs as [|x xs IH]; intros w; simpl.
  - unfold ret, with_trace. rewrite app_nil_r. by destruct w.
  - unfold bind, emit. rewrite IH. unfold record. simpl.
    by rewrite <- app_assoc.
Qed.

Lemma wp_forEach_emit {A} (f : A -> Effect) xs w (Q : Completion unit -> World -> Prop) :
  Q (Return tt) (with_trace (trace w ++ map f xs) w) ->
  wp (forEach xs (fun x => emit (f x))) w Q.
Proof. unfold wp. by rewrite forEach_emit. Qed.

Lemma existsb_map_false {A} (P : Effect -> bool) (f : A -> Effect) xs :
  (forall x, P (f x) = false) -> existsb P (map f xs) = false.
Proof. intros H. induction xs as [|x xs IH]; simpl; [done|]. by rewrite H, IH. Qed.

(** ** Grouping and payloads *)

Lemma groupOf_groupInsert {K A} `{EqDecision K} (k k' : K) (a : A) groups :
  groupOf k (groupInsert k' a groups)
  = if decide (k' = k) then Some (default [] (groupOf k groups) ++ [a])
    else groupOf k groups.
Proof.
  induction groups as [|[k0 members] rest IH]; simpl.
  - destruct (decide (k' = k)); reflexivity.
  - destruct (decide (k0 = k')) as [->|Hne]; simpl.
    + destruct (decide (k' = k)); reflexivity.
    + destruct (decide (k0 = k)) as [->|Hne'].
      * destruct (decide (k' = k)); congruence.
      * exact IH.
Qed.

Lemma groupOf_fold {K A} `{EqDecision K} (key : A -> K) k l acc :
  groupOf k (fold_left (fun groups a => groupInsert (key a) a groups) l acc)
  = match List.filter (fun a => bool_decide (key a = k)) l with
    | [] => groupOf k acc
    | members => Some (default [] (groupOf k acc) ++ members)
    end.
Proof.
  revert acc. induction l as [|a l IH]; intros acc; [reflexivity|].
  simpl. rewrite IH, groupOf_groupInsert.
  destruct (decide (key a = k)) as [Heq|Hne].
  - rewrite bool_decide_true by done. simpl.
    destruct (List.filter _ l); simpl; [reflexivity|]. by rewrite <- app_assoc.
  - rewrite bool_decide_false by done. reflexivity.
Qed.

(** A group holds the elements with its key, in array order. *)
Lemma groupOf_groupBy {K A} `{EqDecision K} (key : A -> K) k l :
  groupOf k (groupBy l key)
  = match List.filter (fun a => bool_decide (key a = k)) l with
    | [] => None
    | members => Some members
    end.
Proof. unfold groupBy. rewrite groupOf_fold. by destruct (List.filter _ l). Qed.

Lemma groupInsert_keys {K A} `{EqDecision K} (k : K) (a : A) groups :
  map fst (groupInsert k a groups)
  = if decide (k ∈ map fst groups) then map fst groups else map fst groups ++ [k].
Proof.
  induction groups as [|[k0 members] rest IH]; simpl.
  - destruct (decide (k ∈ [])) as [Hin|]; [by apply elem_of_nil in Hin|done].
  - destruct (decide (k0 = k)) as [->|Hne]; simpl.
    + rewrite decide_True by left. done.
    + rewrite IH. destruct (decide (k ∈ map fst rest)).
      * rewrite decide_True by (by right). done.
      * rewrite decide_False; [done|]. intros [?|?]%elem_of_cons; congruence.
Qed.

Lemma groupBy_NoDup {K A} `{EqDecision K} (key : A -> K) l :
  NoDup (map fst (groupBy l key)).
Proof.
  unfold groupBy.
  assert (forall acc : list (K * list A), NoDup (map fst acc) ->
    NoDup (map fst (fold_left (fun groups a => groupInsert (key a) a groups) l acc)))
    as Hfold.
  { induction l as [|a l IH]; intros acc Hacc; [done|]. simpl. apply IH.
    rewrite groupInsert_keys. destruct (decide _); [done|].
    apply NoDup_app. split; [done|]. split; [|apply NoDup_singleton].
    intros x Hx ->%list_elem_of_singleton. done. }
  apply Hfold. constructor.
Qed.

Lemma payloadOf_fold {A} (deviceIdOf : A -> string) (contentOf : A -> string)
    (byUser : list (string * list A)) (acc : gmap string (gmap string string))
    (u : string) :
  NoDup (map fst byUser) ->
  fold_left
    (fun userMap '(userId, items) =>
       <[userId := deviceMapOf deviceIdOf contentOf items]> userMap)
    byUser acc !! u
  = match groupOf u byUser with
    | Some items => Some (deviceMapOf deviceIdOf contentOf items)
    | None => acc !! u
    end.
Proof.
  revert acc. induction byUser as [|[k items] rest IH]; intros acc Hnd; [done|].
  simpl in *. apply NoDup_cons in Hnd as [Hk Hnd]. rewrite IH by done.
  destruct (decide (k = u)) as [->|Hne].
  - assert (groupOf u rest = None) as ->.
    { clear -Hk. induction rest as [|[k' m] rest IH]; [done|]. simpl in *.
      destruct (decide (k' = u)) as [->|]; [exfalso; apply Hk; left|].
      apply IH. intros ?. apply Hk. by right. }
    by rewrite lookup_insert_eq.
  - destruct (groupOf u rest); [done|]. by rewrite lookup_insert_ne.
Qed.

Lemma deviceMapOf_const {A} (deviceIdOf : A -> string) (message : string)
    (items : list A) (d : string) :
  deviceMapOf deviceIdOf (fun _ => message) items !! d
  = if existsb (fun a => bool_decide (deviceIdOf a = d)) items
    then Some message else None.
Proof.
  unfold deviceMapOf.
  assert (forall acc : gmap string string,
    fold_left (fun deviceMap a => <[deviceIdOf a := message]> deviceMap) items acc !! d
    = if existsb (fun a => bool_decide (deviceIdOf a = d)) items
      then Some message else acc !! d) as Hfold.
  { induction items as [|a items IH]; intros acc; [done|]. simpl. rewrite IH.
    destruct (existsb _ items); [by rewrite orb_true_r|]. rewrite orb_false_r.
    case_bool_decide as Heq; [subst; by rewrite lookup_insert_eq|].
    by rewrite lookup_insert_ne. }
  rewrite Hfold. by rewrite lookup_empty.
Qed.

(** The payload of a shared message has an entry for a device exactly when
    the device is among those it is sent to. *)
Lemma sharedPayload_lookup (message : string) (devices : list Device) (u d : string) :
  payloadOf deviceId (fun _ => message) (groupBy devices device_userId) !! u
    ≫= (fun deviceMap => deviceMap !! d)
  = if bool_decide (mkDevice u d ∈ devices) then Some message else None.
Proof.
  unfold payloadOf. rewrite payloadOf_fold by apply groupBy_NoDup.
  rewrite groupOf_groupBy.
  assert (existsb (fun a => bool_decide (deviceId a = d))
            (List.filter (fun a => bool_decide (device_userId a = u)) devices)
          = bool_decide (mkDevice u d ∈ devices)) as Hex.
  { apply Bool.eq_iff_eq_true. rewrite bool_decide_eq_true, existsb_exists. split.
    - intros ([u' d'] & [Hin Hu]%filter_In & Hd). simpl in *.
      apply bool_decide_eq_true in Hu, Hd. subst. by apply list_elem_of_In.
    - intros Hin. exists (mkDevice u d). split.
      + apply filter_In. split; [by apply list_elem_of_In|by apply bool_decide_eq_true].
      + by apply bool_decide_eq_true. }
  destruct (List.filter _ devices) as [|a members] eqn:Hf.
  - simpl in *. rewrite lookup_empty. simpl. by rewrite <- Hex.
  - cbn [mbind option_bind]. simpl. rewrite deviceMapOf_const. by rewrite Hex.
Qed.

(** The resolved user ids are the owners of the devices. *)
Lemma deviceOwners_spec devices u :
  u ∈ deviceOwners devices <-> exists d, d ∈ devices /\ device_userId d = u.
Proof.
  unfold deviceOwners.
  assert (forall acc : list string,
    u ∈ fold_left
          (fun set d => if bool_decide (device_userId d ∈ set) then set
                        else set ++ [device_userId d]) devices acc
    <-> u ∈ acc \/ exists d, d ∈ devices /\ device_userId d = u) as Hfold.
  { induction devices as [|d devices IH]; intros acc; simpl.
    - split; [auto|]. intros [?|(d & Hd & _)]; [done|]. by apply elem_of_nil in Hd.
    - rewrite IH. case_bool_decide as Hin.
      + split.
        * intros [Hacc|(d' & Hd' & Hu)]; [by left|].
          right. exists d'. split; [by apply elem_of_cons; right|done].
        * intros [Hacc|(d' & Hd' & Hu)]; [by left|].
          apply elem_of_cons in Hd' as [->|Hd']; [left; by subst|right; eauto].
      + rewrite elem_of_app, list_elem_of_singleton. split.
        * intros [[Hacc| ->]|(d' & Hd' & Hu)]; [by left| |].
          -- right. exists d. split; [by apply elem_of_cons; left|done].
          -- right. exists d'. split; [by apply elem_of_cons; right|done].
        * intros [Hacc|(d' & Hd' & Hu)]; [by left; left|].
          apply elem_of_cons in Hd' as [->|Hd']; [left; by right|right; eauto]. }
  rewrite Hfold. split; [|auto]. intros [Hnil|?]; [|done]. by apply elem_of_nil in Hnil.
Qed.

Lemma unsentUserIdsOf_spec userIds missingDevices u :
  u ∈ unsentUserIdsOf userIds missingDevices
  <-> u ∈ userIds /\ exists d, d ∈ missingDevices /\ device_userId d = u.
Proof.
  unfold unsentUserIdsOf. rewrite !list_elem_of_In, filter_In, existsb_exists.
  split; intros [Hin (d & Hd & Hu)]; (split; [done|]); exists d.
  - apply bool_decide_eq_true in Hu. by rewrite list_elem_of_In.
  - rewrite <- list_elem_of_In. split; [done|]. by apply bool_decide_eq_true.
Qed.

(** ** Member changes *)

(** C6.  [writeMemberChanges]: a member who left makes it discard the room's
    outbound session in the given transaction; without a leave it never
    discards, joins or not; when somebody joined, the engine has an outbound
    session and the store accepts the write, exactly one operation is added,
    in the given transaction, of type share_room_key, scoped to the room and
    to exactly the joining user ids, and the result is [true]; and whenever
    the store accepts writes the call returns and the device tracker has
    been handed the member changes, whoever joined or left. *)
Theorem writeMemberChanges_policy env memberChanges txn w :
  let r := run (writeMemberChanges env memberChanges txn) w in
  let es := since w r.2 in
  (existsb hasLeft memberChanges = true ->
     In (EDiscardOutboundSession (room_id_of env) txn) es)
  /\ (existsb hasLeft memberChanges = false ->
        existsb isDiscardOutboundSession es = false)
  /\ (existsb hasJoined memberChanges = true ->
      forall roomKeyMessage,
        (forall w0, createRoomKeyMessage (_megolmEncryption env) w0 txn
                    = Some roomKeyMessage) ->
        (forall w0 write, operations_throws env w0 write = None) ->
        exists operationId,
          let operation :=
            mkOperation operationId "share_room_key" (room_id_of env)
              (Some (map userId (List.filter hasJoined memberChanges)))
              roomKeyMessage in
          operationsAdded es = [(txn, operation)]
          /\ openTxns r.2 !! txn
             = Some (default [] (openTxns w !! txn) ++ [OpAdd operation])
          /\ r.1 = Return (Some true))
  /\ ((forall w0 write, operations_throws env w0 write = None) ->
      (exists shouldFlush, r.1 = Return shouldFlush)
      /\ In (EDeviceTrackerWriteMemberChanges (room_id_of env) memberChanges txn) es).
Proof.
  destruct w as [tr sb fl dp st tx nx]. to_wp.
  unfold writeMemberChanges, _addShareRoomKeyOperationForNewMembers,
    _writeRoomKeyShareOperation.
  repeat wp_step.
  destruct (existsb hasLeft memberChanges) eqn:Hleft;
    destruct (existsb hasJoined memberChanges) eqn:Hjoined; repeat wp_step;
    try (destruct (createRoomKeyMessage _ _ txn) as [message|] eqn:Hmessage;
         repeat wp_step;
         try (destruct (operations_throws env _ _) eqn:Hthrows; repeat wp_step));
    since_trace.
  all: split; [first [discriminate | intros _; in_trace]|].
  all: split; [first [discriminate | intros _; no_effect]|].
  all: split;
    [ first
        [ discriminate
        | intros _ roomKeyMessage Hsession Hstore; rewrite Hsession in Hmessage;
          first
            [ discriminate
            | by rewrite Hstore in Hthrows
            | injection Hmessage as <-; eexists; cbv zeta;
              split; [added|split; reflexivity] ] ]
    | intros Hstore;
      first [ by rewrite Hstore in Hthrows | split; [by eexists|in_trace] ] ].
Qed.

Lemma writeMemberChanges_policy_witness :
  let r := run (writeMemberChanges outboundEnv exampleMemberChanges callerTxn)
             (newWorld false) in
  In (EDiscardOutboundSession "!room:example.org" callerTxn) (since (newWorld false) r.2)
  /\ In (EDeviceTrackerWriteMemberChanges "!room:example.org" exampleMemberChanges
          callerTxn)
       (since (newWorld false) r.2).
Proof.
  pose proof (writeMemberChanges_policy outboundEnv exampleMemberChanges callerTxn
                (newWorld false)) as (Hleft & _ & _ & Htracker).
  split; [exact (Hleft eq_refl)|exact (proj2 (Htracker (fun _ _ => eq_refl)))].
Defined.

(** The scenario of a room in which one member joins while an outbound
    session exists: one operation for the joining user, flush requested. *)
Example writeMemberChanges_join :
  let changes := [mkMemberChange "@bob:example.org" true false] in
  let r := run (writeMemberChanges outboundEnv changes callerTxn) (newWorld false) in
  r.1 = Return (Some true)
  /\ since (newWorld false) r.2
     = [ ECreateRoomKeyMessage "!room:example.org" callerTxn;
         ELogLog "share key for new members"
           [("userIds", LList ["@bob:example.org"]);
            ("id", LText (Some "session1")); ("chain_index", LNum 0)];
         EOperations callerTxn
           (OpAdd (mkOperation "4711" "share_room_key" "!room:example.org"
                     (Some ["@bob:example.org"]) exampleRoomKeyMessage));
         EDeviceTrackerWriteMemberChanges "!room:example.org" changes callerTxn ].
Proof. split; reflexivity. Qed.

(** C10.  The result of [writeMemberChanges] is [undefined] when nobody
    joined, whether or not somebody left; it is [false], with no operation
    added and the transaction's writes untouched, when somebody joined and
    the engine has no room key message to offer; and a result of [true]
    comes with an operation written in the given transaction. *)
Theorem writeMemberChanges_shouldFlush env memberChanges txn w :
  let r := run (writeMemberChanges env memberChanges txn) w in
  let es := since w r.2 in
  (existsb hasJoined memberChanges = false -> r.1 = Return None)
  /\ (existsb hasJoined memberChanges = true ->
      (forall w0, createRoomKeyMessage (_megolmEncryption env) w0 txn = None) ->
      r.1 = Return (Some false)
      /\ operationsAdded es = []
      /\ openTxns r.2 = openTxns w)
  /\ (r.1 = Return (Some true) ->
      exists operation,
        In (EOperations txn (OpAdd operation)) es
        /\ openTxns r.2 !! txn
           = Some (default [] (openTxns w !! txn) ++ [OpAdd operation])).
Proof.
  destruct w as [tr sb fl dp st tx nx]. to_wp.
  unfold writeMemberChanges, _addShareRoomKeyOperationForNewMembers,
    _writeRoomKeyShareOperation.
  repeat wp_step.
  destruct (existsb hasLeft memberChanges) eqn:Hleft;
    destruct (existsb hasJoined memberChanges) eqn:Hjoined; repeat wp_step;
    try (destruct (createRoomKeyMessage _ _ txn) as [message|] eqn:Hmessage;
         repeat wp_step;
         try (destruct (operations_throws env _ _) eqn:Hthrows; repeat wp_step));
    since_trace; (split; [|split]); try discriminate; try reflexivity.
  all: try (intros _ Hnone; rewrite Hnone in Hmessage; try discriminate).
  all: try (split; [reflexivity|split; [added|reflexivity]]).
  all: intros _; eexists; split; [in_trace|reflexivity].
Qed.

Lemma writeMemberChanges_shouldFlush_witness :
  let r := run (writeMemberChanges quietEnv exampleMemberChanges callerTxn)
             (newWorld false) in
  r.1 = Return (Some false) /\ operationsAdded (since (newWorld false) r.2) = [].
Proof.
  pose proof (writeMemberChanges_shouldFlush quietEnv exampleMemberChanges callerTxn
                (newWorld false)) as (_ & Hnone & _).
  destruct (Hnone eq_refl (fun _ => eq_refl)) as (Hfalse & Hadded & _).
  split; [exact Hfalse|exact Hadded].
Defined.

(** Members only left: the session is discarded and the result is
    [undefined], not [false]. *)
Example writeMemberChanges_leave :
  let changes := [mkMemberChange "@carol:example.org" false true] in
  let r := run (writeMemberChanges outboundEnv changes callerTxn) (newWorld false) in
  r.1 = Return None /\ r.1 <> Return (Some false)
  /\ In (EDiscardOutboundSession "!room:example.org" callerTxn)
       (since (newWorld false) r.2).
Proof. split; [reflexivity|]. split; [discriminate|]. simpl. auto. Qed.

(** ** Sharing a room key *)

(** C7.  One pass of [_processShareRoomKeyOperation] over an operation, when
    the collaborators answer: with [userIds] null the ids are resolved to the
    owners of the devices of the tracked room, and the operation whose
    [userIds] is that resolved list, its other fields as they were, is
    updated in a transaction that is completed before anything is sent to a
    device; the devices without an olm message are the missing ones; when
    there are any, the operation whose [userIds] is the target ids narrowed
    to the owners of missing devices, its other fields as they were, is
    updated and committed before the withheld notice, built with code
    m.no_olm and reason OTKs exhausted, is sent to exactly the missing
    devices; and the pass ends with the removal of the operation and the
    completion of that transaction, so the store no longer holds it. *)
Theorem processShareRoomKeyOperation_pass env operation devices messages w :
  (forall w0, trackRoom (_deviceTracker env) w0 = Return tt) ->
  (forall w0, devicesForTrackedRoom (_deviceTracker env) w0 = Return devices) ->
  (forall w0 ids, devicesForRoomMembers (_deviceTracker env) w0 ids = Return devices) ->
  (forall w0 write, operations_throws env w0 write = None) ->
  (forall w0 message targets, olm_encrypt env w0 message targets = Return messages) ->
  (forall w0 ty payload, sendToDevice env w0 ty payload = Return tt) ->
  let r := run (_processShareRoomKeyOperation env operation) w in
  let es := since w r.2 in
  let targetIds := default (deviceOwners devices) (userIds operation) in
  let missingDevices := missingDevicesOf devices messages in
  let unsentUserIds := unsentUserIdsOf targetIds missingDevices in
  let resolved :=
    mkOperation (id operation) (type operation) (scope operation)
      (Some (deviceOwners devices)) (roomKeyMessage operation) in
  let narrowed :=
    mkOperation (id operation) (type operation) (scope operation)
      (Some unsentUserIds) (roomKeyMessage operation) in
  let withheldMessage :=
    createWithheldMessage (_megolmEncryption env) (roomKeyMessage operation)
      "m.no_olm" "OTKs exhausted" in
  let withheldPayload :=
    payloadOf deviceId (fun _ => withheldMessage)
      (groupBy missingDevices device_userId) in
  r.1 = Return tt
  /\ (userIds operation = None ->
      (forall u, u ∈ deviceOwners devices
                 <-> exists d, d ∈ devices /\ device_userId d = u)
      /\ committedBefore (OpUpdate resolved) isSendToDevice es)
  /\ (forall d, d ∈ missingDevices
                <-> d ∈ devices /\ forall m, m ∈ messages -> device m <> d)
  /\ (missingDevices <> [] ->
      (forall u, u ∈ unsentUserIds
                 <-> u ∈ targetIds
                     /\ exists d, d ∈ missingDevices /\ device_userId d = u)
      /\ committedBefore (OpUpdate narrowed)
           (isSendOf "org.matrix.room_key.withheld") es
      /\ (exists txnId,
            In (ESendToDevice "org.matrix.room_key.withheld" withheldPayload txnId) es)
      /\ (forall u d,
            withheldPayload !! u ≫= (fun deviceMap => deviceMap !! d)
            = if bool_decide (mkDevice u d ∈ missingDevices)
              then Some withheldMessage else None))
  /\ (exists txn,
        closes [EOperations txn (OpRemove (id operation)); ETxnComplete txn] es)
  /\ operationsStore r.2 !! id operation = None.
Proof.
  intros Htrack Hall Hmembers Hstore Holm Hsend.
  assert (forall d, d ∈ missingDevicesOf devices messages
                    <-> d ∈ devices /\ forall m, m ∈ messages -> device m <> d)
    as Hmiss.
  { intros d. unfold missingDevicesOf.
    rewrite list_elem_of_In, filter_In, <- list_elem_of_In, negb_true_iff.
    rewrite <- not_true_iff_false, existsb_exists.
    split; intros [Hd Hnone]; (split; [done|]).
    - intros m Hm Heq. apply Hnone. exists m.
      split; [by apply list_elem_of_In|by apply bool_decide_eq_true].
    - intros (m & Hm & Heq). apply bool_decide_eq_true in Heq.
      by apply (Hnone m); [apply list_elem_of_In|]. }
  destruct w as [tr sb fl dp st tx nx]. to_wp.
  unfold _processShareRoomKeyOperation, _updateOperationsStore,
    _sendMessagesToDevices, _sendSharedMessageToDevices.
  repeat wp_step. rewrite Htrack. repeat wp_step.
  destruct (userIds operation) as [ids|] eqn:Hids; repeat wp_step.
  - rewrite Hmembers. repeat wp_step. rewrite Holm. repeat wp_step.
    rewrite Hsend. repeat wp_step.
    remember (missingDevicesOf devices messages) as missingDevices eqn:Hmissing.
    destruct (negb (length missingDevices =? 0)%nat) eqn:Hlen; repeat wp_step.
    + rewrite Hstore. repeat wp_step. rewrite Hsend. repeat wp_step.
      rewrite Hstore. repeat wp_step. since_trace.
      rewrite ?Hids. unfold setUserIds.
      cbn [roomKeyMessage id type scope userIds from_option Datatypes.id].
      split; [reflexivity|]. split; [discriminate|]. split; [exact Hmiss|].
      split; [|split].
      * intros _. split; [intros u; apply unsentUserIdsOf_spec|].
        split; [committed|]. split; [eexists; in_trace|].
        intros u d. apply sharedPayload_lookup.
      * eexists. closing.
      * apply lookup_delete_eq.
    + rewrite Hstore. repeat wp_step. since_trace.
      split; [reflexivity|]. split; [discriminate|]. split; [exact Hmiss|].
      split; [|split].
      * destruct missingDevices; [done|discriminate].
      * eexists. closing.
      * apply lookup_delete_eq.
  - rewrite Hall. repeat wp_step. rewrite Hstore. repeat wp_step.
    rewrite Holm. repeat wp_step. rewrite Hsend. repeat wp_step.
    remember (missingDevicesOf devices messages) as missingDevices eqn:Hmissing.
    destruct (negb (length missingDevices =? 0)%nat) eqn:Hlen; repeat wp_step.
    + rewrite Hstore. repeat wp_step. rewrite Hsend. repeat wp_step.
      rewrite Hstore. repeat wp_step. since_trace.
      unfold setUserIds.
      cbn [roomKeyMessage id type scope userIds from_option Datatypes.id].
      split; [reflexivity|].
      split; [intros _; split; [apply deviceOwners_spec|committed]|].
      split; [exact Hmiss|]. split; [|split].
      * intros _. split; [intros u; apply unsentUserIdsOf_spec|].
        split; [committed|]. split; [eexists; in_trace|].
        intros u d. apply sharedPayload_lookup.
      * eexists. closing.
      * apply lookup_delete_eq.
    + rewrite Hstore. repeat wp_step. since_trace.
      unfold setUserIds.
      cbn [roomKeyMessage id type scope userIds from_option Datatypes.id].
      split; [reflexivity|].
      split; [intros _; split; [apply deviceOwners_spec|committed]|].
      split; [exact Hmiss|]. split; [|split].
      * destruct missingDevices; [done|discriminate].
      * eexists. closing.
      * apply lookup_delete_eq.
Qed.

Lemma processShareRoomKeyOperation_pass_witness :
  let r := run (_processShareRoomKeyOperation shareEnv exampleOperation)
             (newWorld false) in
  r.1 = Return tt
  /\ committedBefore
       (OpUpdate (mkOperation "4711" "share_room_key" "!room:example.org"
                    (Some ["@alice:example.org"; "@bob:example.org"])
                    exampleRoomKeyMessage))
       isSendToDevice (since (newWorld false) r.2)
  /\ committedBefore
       (OpUpdate (mkOperation "4711" "share_room_key" "!room:example.org"
                    (Some ["@bob:example.org"]) exampleRoomKeyMessage))
       (isSendOf "org.matrix.room_key.withheld") (since (newWorld false) r.2)
  /\ operationsStore r.2 !! "4711" = None.
Proof.
  pose proof (processShareRoomKeyOperation_pass shareEnv exampleOperation
                exampleDevices exampleMessages (newWorld false)
                (fun _ => eq_refl) (fun _ => eq_refl) (fun _ _ => eq_refl)
                (fun _ _ => eq_refl) (fun _ _ _ => eq_refl) (fun _ _ _ => eq_refl))
    as (Hreturn & Hresolved & _ & Hnarrowed & _ & Hstore).
  split; [exact Hreturn|].
  split; [exact (proj2 (Hresolved eq_refl))|].
  split; [|exact Hstore].
  assert (missingDevicesOf exampleDevices exampleMessages <> []) as Hmissing
    by discriminate.
  exact (proj1 (proj2 (Hnarrowed Hmissing))).
Defined.

(** The pass over an unresolved operation for a room with three devices, of
    which two get no olm message. *)
Example processShareRoomKeyOperation_withheld :
  let r := run (_processShareRoomKeyOperation shareEnv exampleOperation)
             (newWorld false) in
  since (newWorld false) r.2
  = [ ELogSet "id" (LText (Some "4711"));
      ETrackRoom "!room:example.org";
      EDevicesForTrackedRoom "!room:example.org";
      EReadWriteTxn [storeNames_operations] 0;
      EOperations 0
        (OpUpdate (setUserIds exampleOperation
                     ["@alice:example.org"; "@bob:example.org"]));
      ETxnComplete 0;
      ELogWrap "olm encrypt";
      EOlmEncrypt "m.room_key" exampleRoomKeyMessage exampleDevices;
      ELogWrap "send";
      ELogSet "messages" (LNum 1);
      ESendToDevice "m.room.encrypted"
        {[ "@alice:example.org" := {[ "APHONE" := "ciphertext for APHONE" ]} ]} "t0";
      ELogWrap "missingDevices";
      ELogSet "devices" (LList ["BPHONE"; "BTABLET"]);
      ELogSet "unsentUserIds" (LList ["@bob:example.org"]);
      EReadWriteTxn [storeNames_operations] 1;
      EOperations 1 (OpUpdate (setUserIds exampleOperation ["@bob:example.org"]));
      ETxnComplete 1;
      ECreateWithheldMessage exampleRoomKeyMessage "m.no_olm" "OTKs exhausted";
      ESendToDevice "org.matrix.room_key.withheld"
        {[ "@bob:example.org" := {[ "BPHONE" := "m.no_olm: OTKs exhausted";
                                     "BTABLET" := "m.no_olm: OTKs exhausted" ]} ]} "t0";
      EReadWriteTxn [storeNames_operations] 2;
      EOperations 2 (OpRemove "4711");
      ETxnComplete 2 ].
Proof. vm_compute. reflexivity. Qed.

(** Whatever the collaborators do, the transaction that [_shareNewRoomKey]
    opens for the new operation is never completed by it. *)
Lemma shareNewRoomKey_leaves_transaction_open env roomKeyMessage w :
  let r := run (_shareNewRoomKey env roomKeyMessage) w in
  existsb (isTxnCompleteOf (nextTxn w)) (since w r.2) = false.
Proof.
  destruct w as [tr sb fl dp st tx nx]. to_wp. cbn [nextTxn].
  unfold _shareNewRoomKey, _writeRoomKeyShareOperation, _processShareRoomKeyOperation,
    _updateOperationsStore, _sendMessagesToDevices, _sendSharedMessageToDevices.
  wp_run; since_trace.
  all: rewrite ?existsb_app; cbn [existsb orb isTxnCompleteOf];
    rewrite ?(proj2 (Nat.eqb_neq _ _)) by lia;
    repeat (rewrite existsb_interruption by (assumption || reflexivity)); reflexivity.
Qed.

(** C3.  [_shareNewRoomKey] with the network down when the device list is
    fetched: the call throws; the operation was added in transaction 0, which
    is neither completed nor aborted; the store holds no operation; and a
    later [flushPendingRoomKeyShares], with the network back, finds nothing
    to deliver. *)
Theorem shareNewRoomKey_not_committed :
  let r := run (_shareNewRoomKey offlineEnv exampleRoomKeyMessage) (newWorld false) in
  r.1 = Throw connectionError
  /\ since (newWorld false) r.2
     = [ EReadWriteTxn [storeNames_operations] 0;
         EOperations 0 (OpAdd exampleOperation);
         ELogSet "id" (LText (Some "4711"));
         ETrackRoom "!room:example.org";
         EDevicesForTrackedRoom "!room:example.org" ]
  /\ operationsStore r.2 = ∅
  /\ openTxns r.2 !! 0 = Some [OpAdd exampleOperation]
  /\ let later := run (flushPendingRoomKeyShares shareEnv None) r.2 in
     later.1 = Return tt
     /\ since r.2 later.2
        = [ EReadTxn [storeNames_operations] 1;
            EGetAllByTypeAndScope 1 "share_room_key" "!room:example.org" ].
Proof. vm_compute. repeat split; reflexivity. Qed.

(** ** Flushing pending key shares *)

(** A call made while a flush is in flight does nothing. *)
Lemma flushPendingRoomKeyShares_reentrant env operations w :
  _isFlushingRoomKeyShares w = true ->
  run (flushPendingRoomKeyShares env operations) w = (Return tt, w).
Proof.
  intros Hflag. unfold run, flushPendingRoomKeyShares. by rewrite bind_get, Hflag.
Qed.

Lemma omap_interruption {B} (f : Effect -> option B) ds :
  forallb isCacheDispose ds = true ->
  (forall c, f (ECacheDispose c) = None) ->
  omap f ds = [].
Proof.
  intros Hds Hf. induction ds as [|e ds IH]; [done|].
  simpl in Hds. apply andb_prop in Hds as [He Hds].
  destruct e; try discriminate. cbn [omap list_omap]. rewrite Hf. by apply IH.
Qed.

(** Reads a projection of a history off its calls. *)
Ltac read_off :=
  rewrite ?omap_app;
  repeat match goal with
  | Hds : forallb isCacheDispose ?ds = true |- context [omap ?f ?ds] =>
      rewrite (omap_interruption f ds Hds) by reflexivity
  end;
  cbn [omap list_omap app String.eqb Ascii.eqb Bool.eqb]; try reflexivity.

Lemma forEach_cons {A} (body : A -> Async unit) x xs w :
  forEach (x :: xs) body w
  = match body x w with
    | (Return _, w') => forEach xs body w'
    | (Throw e, w') => (Throw e, w')
    end.
Proof. reflexivity. Qed.

(** One pass, whatever the collaborators do: it starts once, and when it
    returns its removal has been requested once, after the start. *)
Lemma pass_milestones env operation w :
  let r := await env (log_wrap "operation" (_processShareRoomKeyOperation env operation)) w in
  exists es,
    trace r.2 = trace w ++ es
    /\ match r.1 with
       | Return _ => passMilestones es = completedPass operation
       | Throw _ =>
           exists attempted,
             passMilestones es = PassStarted (id operation) :: attempted
             /\ (attempted = [] \/ attempted = [RemovalRequested (id operation)])
       end.
Proof.
  destruct w as [tr sb fl dp st tx nx]. to_wp. cbn [trace].
  unfold _processShareRoomKeyOperation, _updateOperationsStore,
    _sendMessagesToDevices, _sendSharedMessageToDevices.
  wp_run.
  all: eexists; (split; [rewrite <- ?app_assoc; reflexivity|]).
  all: unfold setUserIds, passMilestones, completedPass; cbn [id]; read_off.
  all: first [ reflexivity
             | eexists; split; [reflexivity|]; first [by left|by right] ].
Qed.

(** The loop of a flush: the passes are made in list order, each from its
    start to its removal before the next starts; operations of another type
    have no pass; the loop stops in the first pass that throws. *)
Lemma flush_loop_milestones env operations w :
  let r := forEach operations
             (fun operation =>
                if negb (String.eqb (type operation) "share_room_key") then ret tt
                else await env (log_wrap "operation"
                                  (_processShareRoomKeyOperation env operation))) w in
  exists es,
    trace r.2 = trace w ++ es
    /\ match r.1 with
       | Return _ =>
           passMilestones es
           = flat_map completedPass (List.filter isShareRoomKey operations)
       | Throw _ =>
           exists finished failed rest attempted,
             List.filter isShareRoomKey operations = finished ++ failed :: rest
             /\ passMilestones es
                = flat_map completedPass finished
                  ++ PassStarted (id failed) :: attempted
             /\ (attempted = [] \/ attempted = [RemovalRequested (id failed)])
       end.
Proof.
  cbv zeta. revert w.
  induction operations as [|operation operations IH]; intros w.
  - exists []. split; [by rewrite app_nil_r|reflexivity].
  - rewrite forEach_cons. cbn [List.filter].
    change (String.eqb (type operation) "share_room_key")
      with (isShareRoomKey operation).
    destruct (isShareRoomKey operation); cbn [negb].
    + destruct (pass_milestones env operation w) as (es1 & Htrace1 & Hpass).
      cbv zeta in Htrace1, Hpass.
      destruct (await env _ w) as [[[]|err] w1]; cbn [fst snd] in *.
      * destruct (IH w1) as (es2 & Htrace2 & Hrest).
        exists (es1 ++ es2). split; [by rewrite Htrace2, Htrace1, app_assoc|].
        unfold passMilestones in *. rewrite omap_app, Hpass.
        destruct (forEach operations _ w1) as [[[]|err] w2]; cbn [fst snd] in *.
        -- by rewrite Hrest.
        -- destruct Hrest as (finished & failed & rest & attempted & Hsplit & -> & Hattempted).
           exists (operation :: finished), failed, rest, attempted.
           split; [by rewrite Hsplit|]. split; [|done].
           cbn [flat_map]. by rewrite <- app_assoc.
      * destruct Hpass as (attempted & Hpass & Hattempted).
        exists es1. split; [done|].
        exists [], operation, (List.filter isShareRoomKey operations), attempted.
        split; [reflexivity|]. split; [exact Hpass|exact Hattempted].
    + unfold ret. apply IH.
Qed.

(** C9.  [flushPendingRoomKeyShares], whatever the collaborators answer or
    throw.  A call made while a flush is in flight returns at once and
    leaves the world to the flush that owns the flag.  A call that finds no
    flush in flight ends with the flag cleared, whether it returned or
    threw, and its history shows the passes strictly one after the other,
    over the list supplied or else over the list read from the store: when
    it returns, the milestones in the history are, for each operation of
    type share_room_key in list order, the start of its pass and then its
    removal, with nothing of the next pass before the removal of the
    previous one; when it throws, they are these milestones for the
    operations before the failing one, followed by the start of the failing
    pass and at most its removal; an operation of another type has no pass
    and no removal; and a supplied list without any operation of that type
    leaves the world as it was. *)
Theorem flushPendingRoomKeyShares_serial env operations w :
  let r := run (flushPendingRoomKeyShares env operations) w in
  let es := since w r.2 in
  let pending :=
    List.filter isShareRoomKey
      match operations with
      | Some supplied => supplied
      | None =>
          filter (fun operation =>
                    type operation = "share_room_key"
                    /\ scope operation = room_id_of env)
            (map_to_list (operationsStore w)).*2
      end in
  (_isFlushingRoomKeyShares w = true -> r = (Return tt, w))
  /\ (_isFlushingRoomKeyShares w = false ->
      _isFlushingRoomKeyShares r.2 = false
      /\ match r.1 with
         | Return _ => passMilestones es = flat_map completedPass pending
         | Throw _ =>
             exists finished failed rest attempted,
               pending = finished ++ failed :: rest
               /\ passMilestones es
                  = flat_map completedPass finished
                    ++ PassStarted (id failed) :: attempted
               /\ (attempted = [] \/ attempted = [RemovalRequested (id failed)])
         end
      /\ (forall supplied,
            operations = Some supplied ->
            List.filter isShareRoomKey supplied = [] ->
            r = (Return tt, w))).
Proof.
  cbv zeta. split; [apply flushPendingRoomKeyShares_reentrant|].
  intros Hflag. destruct w as [tr sb fl dp st tx nx]. simpl in Hflag. subst fl.
  split; [|split].
  - unfold run, flushPendingRoomKeyShares.
    rewrite bind_get. cbn [_isFlushingRoomKeyShares]. rewrite bind_modify.
    by rewrite tryFinally_modify.
  - to_wp. cbn [operationsStore]. unfold flushPendingRoomKeyShares. do 5 wp_step.
    destruct operations as [supplied|]; repeat wp_step.
    + match goal with
      | |- wp (forEach ?ops ?body) ?w0 _ =>
          destruct (flush_loop_milestones env ops w0) as (es & Htrace & Hloop);
          unfold wp; cbv zeta in Htrace, Hloop;
          destruct (forEach ops body w0) as [c w']
      end.
      cbn [fst snd] in *. unfold modify. cbn [fst snd]. wsimpl.
      erewrite since_extend by (wsimpl; exact Htrace).
      destruct c; exact Hloop.
    + unfold getAllByTypeAndScope at 1. unfold wp at 1. cbn [fst snd].
      intros ds b Hds0 _. wsimpl.
      match goal with
      | |- wp (forEach ?ops ?body) ?w0 _ =>
          destruct (flush_loop_milestones env ops w0) as (es & Htrace & Hloop);
          unfold wp; cbv zeta in Htrace, Hloop;
          destruct (forEach ops body w0) as [c w']
      end.
      cbn [fst snd] in *. unfold modify. cbn [fst snd]. wsimpl.
      cbn [trace record with_trace with_storage with_isFlushingRoomKeyShares
           interrupted with_disposed] in Htrace.
      erewrite since_extend by (wsimpl; rewrite Htrace, <- ?app_assoc; reflexivity).
      destruct c.
      * unfold passMilestones in *. read_off. exact Hloop.
      * destruct Hloop as (finished & failed & rest & attempted & Hsplit & Hes & Hattempted).
        exists finished, failed, rest, attempted.
        split; [exact Hsplit|]. split; [|exact Hattempted].
        unfold passMilestones in *. read_off. exact Hes.
  - intros supplied -> Hnone. unfold run, flushPendingRoomKeyShares.
    rewrite bind_get. cbn [_isFlushingRoomKeyShares]. rewrite bind_modify.
    rewrite tryFinally_modify. unfold bind, ret.
    rewrite (forEach_skip isShareRoomKey), Hnone. reflexivity.
Qed.

Lemma flushPendingRoomKeyShares_serial_witness :
  let r := run (flushPendingRoomKeyShares shareEnv
                  (Some [foreignOperation; exampleOperation])) (newWorld false) in
  _isFlushingRoomKeyShares r.2 = false
  /\ passMilestones (since (newWorld false) r.2)
     = [PassStarted "4711"; RemovalRequested "4711"].
Proof.
  pose proof (flushPendingRoomKeyShares_serial shareEnv
                (Some [foreignOperation; exampleOperation]) (newWorld false))
    as [_ Hruns].
  destruct (Hruns eq_refl) as (Hcleared & Hserial & _).
  split; [exact Hcleared|exact Hserial].
Defined.

(** An operation of another type is passed over: nothing is sent for it and
    it is not removed. *)
Example flushPendingRoomKeyShares_foreign :
  run (flushPendingRoomKeyShares shareEnv (Some [foreignOperation])) (newWorld false)
  = (Return tt, newWorld false).
Proof. reflexivity. Qed.

(** The network is down: the first pass starts and throws, the flag is
    cleared all the same. *)
Example flushPendingRoomKeyShares_throws :
  let r := run (flushPendingRoomKeyShares offlineEnv (Some [exampleOperation]))
             (newWorld false) in
  r.1 = Throw connectionError
  /\ _isFlushingRoomKeyShares r.2 = false
  /\ passMilestones (since (newWorld false) r.2) = [PassStarted "4711"].
Proof. repeat split; reflexivity. Qed.

(** ** Recovering a session from the backup *)

(** C2, as amended.  When the backup answers with a record whose sender key
    differs from the expected one, [_requestMissingSessionFromBackup]
    returns without opening a write transaction, without writing a room key
    and without notifying the room; when moreover the record is of the
    megolm algorithm, the mismatch is set on the log item, the log level is
    raised to warning and the record is not even parsed into a room key. *)
Theorem requestMissingSessionFromBackup_mismatch env senderKey sessionId session w :
  _sessionBackup w = true ->
  (forall w0, getSession env w0 sessionId = Return (Some session)) ->
  sender_key session <> senderKey ->
  let r := run (_requestMissingSessionFromBackup env senderKey sessionId) w in
  let es := since w r.2 in
  r.1 = Return tt
  /\ existsb isWriteRoomKey es = false
  /\ existsb isReadWriteTxn es = false
  /\ existsb isNotifyRoomKey es = false
  /\ (algorithm session = Some (MEGOLM_ALGORITHM env) ->
      In (ELogSet "wrong_sender_key" (LText (sender_key session))) es
      /\ In (ELogLevel LevelWarn) es
      /\ existsb isRoomKeyFromBackup es = false).
Proof.
  intros Hbackup Hsession Hmismatch. destruct w as [tr sb fl dp st tx nx].
  simpl in Hbackup. subst sb. to_wp.
  unfold _requestMissingSessionFromBackup. repeat wp_step.
  cbn [negb]. repeat wp_step. rewrite Hsession. repeat wp_step.
  cbn [mbind option_bind].
  case_bool_decide as Halgorithm.
  - rewrite bool_decide_true by done. repeat wp_step. since_trace.
    split; [reflexivity|]. do 3 (split; [no_effect|]).
    intros _. split; [in_trace|]. split; [in_trace|no_effect].
  - destruct (truthy (algorithm session)); repeat wp_step; since_trace.
    all: split; [reflexivity|]; do 3 (split; [no_effect|]); done.
Qed.

Lemma requestMissingSessionFromBackup_mismatch_witness :
  let r := run (_requestMissingSessionFromBackup intruderBackupEnv (Some "senderkey")
                  (Some "session9")) (newWorld true) in
  r.1 = Return tt
  /\ existsb isWriteRoomKey (since (newWorld true) r.2) = false
  /\ In (ELogLevel LevelWarn) (since (newWorld true) r.2)
  /\ existsb isRoomKeyFromBackup (since (newWorld true) r.2) = false.
Proof.
  pose proof (requestMissingSessionFromBackup_mismatch intruderBackupEnv
                (Some "senderkey") (Some "session9") intruderBackupSession
                (newWorld true) eq_refl (fun _ => eq_refl)) as H.
  destruct H as (Hreturn & Hwrite & _ & _ & Hmegolm); [discriminate|].
  destruct (Hmegolm eq_refl) as (_ & Hwarn & Hparse).
  split; [exact Hreturn|]. split; [exact Hwrite|]. split; [exact Hwarn|exact Hparse].
Defined.

(** C2 as stated fails: a record of another algorithm with another sender
    key is dropped with an "unknown algorithm" entry; the log level stays as
    it was. *)
Lemma requestMissingSessionFromBackup_mismatch_not_warned :
  let r := run (_requestMissingSessionFromBackup foreignBackupEnv (Some "senderkey")
                  (Some "session9")) (newWorld true) in
  sender_key foreignBackupSession <> Some "senderkey"
  /\ since (newWorld true) r.2
     = [ ELogSet "id" (LText (Some "session9"));
         ELogSet "senderKey" (LText (Some "senderkey"));
         EGetSession "!room:example.org" (Some "session9");
         ELogSet "unknown algorithm" (LText (Some "m.olm.v1.curve25519-aes-sha2")) ]
  /\ existsb (isLogLevel LevelWarn) (since (newWorld true) r.2) = false.
Proof. split; [discriminate|]. split; reflexivity. Qed.

(** Whatever the backup throws is caught; which branch of the handler logs
    it is decided by [isNotFound]: a not-found error is logged at error
    level, any other error sets not_found and leaves the level alone. *)
Lemma requestMissingSessionFromBackup_catch env senderKey sessionId err w :
  _sessionBackup w = true ->
  (forall w0, getSession env w0 sessionId = Throw err) ->
  let r := run (_requestMissingSessionFromBackup env senderKey sessionId) w in
  let es := since w r.2 in
  r.1 = Return tt
  /\ (isNotFound err = true ->
      In (ELogError err) es /\ In (ELogLevel LevelError) es)
  /\ (isNotFound err = false ->
      In (ELogSet "not_found" (LBool true)) es
      /\ existsb (isLogLevel LevelError) es = false).
Proof.
  intros Hbackup Hthrows. destruct w as [tr sb fl dp st tx nx].
  simpl in Hbackup. subst sb. to_wp.
  unfold _requestMissingSessionFromBackup. repeat wp_step.
  cbn [negb]. repeat wp_step. rewrite Hthrows. repeat wp_step.
  destruct (isNotFound err); cbn [negb]; repeat wp_step; since_trace.
  - split; [reflexivity|]. split; [|discriminate]. intros _. split; in_trace.
  - split; [reflexivity|]. split; [discriminate|]. intros _. split; [in_trace|no_effect].
Qed.

(** C4.  The backup answers M_NOT_FOUND: the error is swallowed, and it is
    put on the log item with the level raised to error. *)
Theorem requestMissingSessionFromBackup_not_found :
  let r := run (_requestMissingSessionFromBackup notFoundBackupEnv (Some "senderkey")
                  (Some "session9")) (newWorld true) in
  r.1 = Return tt
  /\ since (newWorld true) r.2
     = [ ELogSet "id" (LText (Some "session9"));
         ELogSet "senderKey" (LText (Some "senderkey"));
         EGetSession "!room:example.org" (Some "session9");
         ELogError notFoundError;
         ELogLevel LevelError ].
Proof. split; reflexivity. Qed.

(** The other way round: the backup cannot be reached, and the log item
    says not_found, at no particular level. *)
Example requestMissingSessionFromBackup_unreachable :
  let r := run (_requestMissingSessionFromBackup unreachableBackupEnv (Some "senderkey")
                  (Some "session9")) (newWorld true) in
  r.1 = Return tt
  /\ since (newWorld true) r.2
     = [ ELogSet "id" (LText (Some "session9"));
         ELogSet "senderKey" (LText (Some "senderkey"));
         EGetSession "!room:example.org" (Some "session9");
         ELogSet "not_found" (LBool true) ].
Proof. split; reflexivity. Qed.

(** ** Decrypting a batch *)

(** The events handed to the engine are all events of the batch that are
    not redacted, whatever their algorithm. *)
Lemma prepareDecryptAll_validEvents env events :
  (fold_left (prepareDecryptAll_step env) events (∅, [])).2
  = List.filter
      (fun event => negb (redacted_because event || unsigned_redacted_because event))
      events.
Proof.
  assert (forall acc,
    (fold_left (prepareDecryptAll_step env) events acc).2
    = acc.2 ++ List.filter
        (fun event => negb (redacted_because event || unsigned_redacted_because event))
        events) as Hfold.
  { induction events as [|event events IH]; intros acc; simpl.
    - by rewrite app_nil_r.
    - rewrite IH. unfold prepareDecryptAll_step.
      destruct (redacted_because event || unsigned_redacted_because event); simpl;
        [done|by rewrite <- app_assoc]. }
  apply Hfold.
Qed.

(** An entry of the errors map of [prepareDecryptAll] comes from an event of
    the batch with that id and another algorithm than megolm. *)
Lemma prepareDecryptAll_errors env events k err :
  (fold_left (prepareDecryptAll_step env) events (∅, [])).1 !! k = Some err ->
  exists event,
    event ∈ events /\ event_id event = k
    /\ content_algorithm event <> Some (MEGOLM_ALGORITHM env).
Proof.
  assert (forall acc,
    (fold_left (prepareDecryptAll_step env) events acc).1 !! k = Some err ->
    acc.1 !! k = Some err
    \/ exists event,
         event ∈ events /\ event_id event = k
         /\ content_algorithm event <> Some (MEGOLM_ALGORITHM env)) as Hfold.
  { induction events as [|event events IH]; intros acc; simpl; [by left|].
    intros [Hacc|(e & He & Hk & Ha)]%IH.
    - unfold prepareDecryptAll_step in Hacc.
      destruct (redacted_because event || unsigned_redacted_because event);
        simpl in Hacc; [by left|].
      case_bool_decide as Halgorithm; [|by left].
      destruct (decide (event_id event = k)) as [Heq|Hne].
      + right. exists event. split; [by left|done].
      + left. by rewrite lookup_insert_ne in Hacc.
    - right. exists e. split; [by right|done]. }
  intros [Hempty|?]%Hfold; [|done]. simpl in Hempty. by rewrite lookup_empty in Hempty.
Qed.

(** C1.  A batch of one event encrypted with olm, and an engine that
    decrypts what it is handed: the event is handed to the engine, and it
    ends in the results map and in the errors map. *)
Theorem prepareDecryptAll_unsupported_algorithm :
  let r := run (decryptAndWrite decryptingEnv [olmEvent] Timeline callerTxn)
             (newWorld false) in
  content_algorithm olmEvent <> Some (MEGOLM_ALGORITHM decryptingEnv)
  /\ since (newWorld false) r.2
     = [ EMegolmPrepareDecryptAll "!room:example.org" [olmEvent] megolmBackfillCache
           callerTxn;
         EMegolmDecrypt;
         EMegolmWrite callerTxn ]
  /\ exists result,
       r.1 = Return result
       /\ results result !! "$e1" = Some (mkDecryptionResult "hello" "senderkey")
       /\ errors result !! "$e1" = Some (unsupportedAlgorithm olmEvent).
Proof.
  split; [discriminate|]. split; [reflexivity|].
  eexists. split; [reflexivity|]. split; reflexivity.
Qed.

(** C5, as amended.  A batch of events with distinct ids comes from sync and
    is decrypted and written while no backup is configured, and the engine
    has no session for one of its events, a megolm event that is not
    redacted: the event ends in the errors map with the engine's
    MEGOLM_NO_SESSION error, the backup is not asked for the session, and no
    missing-session notification is sent: without a backup
    [_processDecryptionResults] returns before it starts the task that would
    ask for the session. *)
Theorem write_missing_session_without_backup env events txn event error w :
  _sessionBackup w = false ->
  event ∈ events ->
  NoDup (map event_id events) ->
  redacted_because event || unsigned_redacted_because event = false ->
  content_algorithm event = Some (MEGOLM_ALGORITHM env) ->
  (forall w0 validEvents,
     event ∈ validEvents ->
     (changes_write (_megolmDecryption env) w0 validEvents).2 !! event_id event
     = Some error) ->
  err_code error = Some "MEGOLM_NO_SESSION" ->
  let r := run (decryptAndWrite env events Sync txn) w in
  let es := since w r.2 in
  (exists result, r.1 = Return result /\ errors result !! event_id event = Some error)
  /\ existsb isGetSession es = false
  /\ existsb isNotifyMissingMegolmSession es = false.
Proof.
  intros Hbackup Hin Hids Hredacted Halgorithm Hengine Hcode.
  assert (event ∈ (fold_left (prepareDecryptAll_step env) events (∅, [])).2) as Hvalid.
  { rewrite prepareDecryptAll_validEvents, list_elem_of_In, filter_In.
    split; [by apply list_elem_of_In|by rewrite Hredacted]. }
  assert ((fold_left (prepareDecryptAll_step env) events (∅, [])).1 !! event_id event
          = None) as Hextra.
  { destruct (_ !! event_id event) as [err|] eqn:Herr; [|done].
    apply prepareDecryptAll_errors in Herr as (e & He & Hid & Hother).
    assert (e = event) as ->; [|done].
    clear -Hin He Hid Hids. induction events as [|x xs IH]; [by apply elem_of_nil in He|].
    simpl in Hids. apply NoDup_cons in Hids as [Hx Hxs].
    apply elem_of_cons in Hin as [->|Hin]; apply elem_of_cons in He as [->|He]; auto.
    - exfalso. apply Hx. rewrite <- Hid. apply list_elem_of_In, in_map.
      by apply list_elem_of_In.
    - exfalso. apply Hx. rewrite Hid. apply list_elem_of_In, in_map.
      by apply list_elem_of_In. }
  destruct w as [tr sb fl dp st tx nx]. simpl in Hbackup. subst sb. to_wp.
  unfold decryptAndWrite, prepareDecryptAll, decrypt, write, _processDecryptionResults.
  repeat wp_step. cbn [_megolmDecryptionPreparation _megolmDecryptionChanges
    prep_extraErrors prep_source prep_events _extraErrors _source _events].
  repeat wp_step.
  match goal with
  | |- context [changes_write ?d ?w0 ?v] =>
      pose proof (Hengine w0 v Hvalid) as Herror;
      destruct (changes_write d w0 v) as [decrypted failed]
  end.
  cbn [fst snd] in *. repeat wp_step.
  assert (mergeMap (fold_left (prepareDecryptAll_step env) events (∅, [])).1 failed
            !! event_id event = Some error) as Hmerged.
  { unfold mergeMap. by rewrite lookup_union_r. }
  destruct (length _ =? 0)%nat; repeat wp_step.
  - since_trace. split; [eexists; split; [reflexivity|exact Hmerged]|]. split; no_effect.
  - cbn [isSync]. repeat wp_step. apply wp_forEach_emit. repeat wp_step.
    cbn [negb]. repeat wp_step. since_trace.
    split; [eexists; split; [reflexivity|exact Hmerged]|].
    split; rewrite ?existsb_app; cbn [existsb orb isGetSession isNotifyMissingMegolmSession];
      rewrite ?existsb_map_false by reflexivity;
      repeat (rewrite existsb_interruption by (assumption || reflexivity)); reflexivity.
Qed.

Lemma write_missing_session_without_backup_witness :
  let r := run (decryptAndWrite sessionlessEnv [megolmEvent] Sync callerTxn)
             (newWorld false) in
  existsb isGetSession (since (newWorld false) r.2) = false
  /\ existsb isNotifyMissingMegolmSession (since (newWorld false) r.2) = false.
Proof.
  pose proof (write_missing_session_without_backup sessionlessEnv [megolmEvent]
                callerTxn megolmEvent noSessionError (newWorld false) eq_refl) as H.
  destruct H as (_ & Hbackup & Hnotify).
  - apply list_elem_of_singleton. reflexivity.
  - repeat constructor. apply not_elem_of_nil.
  - reflexivity.
  - reflexivity.
  - intros w0 validEvents Hin. simpl.
    induction validEvents as [|e rest IH]; [by apply elem_of_nil in Hin|].
    simpl. apply elem_of_cons in Hin as [<-|Hin].
    + apply lookup_insert_eq.
    + destruct (decide (event_id e = "$e2")) as [Heq|Hne].
      * simpl in Heq. rewrite Heq. apply lookup_insert_eq.
      * rewrite lookup_insert_ne by done. by apply IH.
  - reflexivity.
  - split; [exact Hbackup|exact Hnotify].
Defined.

(** C5 as stated fails: a megolm event from sync for which the engine has
    no session is decrypted and written while no backup is configured; the
    event ends in the errors map with code MEGOLM_NO_SESSION, its id is
    recorded for the missing key and the backup is not asked, but the
    history holds no missing-session notification. *)
Theorem write_missing_session_not_notified :
  let r := run (decryptAndWrite sessionlessEnv [megolmEvent] Sync callerTxn)
             (newWorld false) in
  since (newWorld false) r.2
  = [ EMegolmPrepareDecryptAll "!room:example.org" [megolmEvent] megolmSyncCache
        callerTxn;
      EMegolmDecrypt;
      EMegolmWrite callerTxn;
      EAddMissingKeyEventIds "!room:example.org" (Some "senderkey") (Some "session9")
        ["$e2"] callerTxn ]
  /\ ~ In ENotifyMissingMegolmSession (since (newWorld false) r.2)
  /\ exists result,
       r.1 = Return result /\ errors result !! "$e2" = Some noSessionError.
Proof.
  split; [reflexivity|]. split.
  - vm_compute. intros H. repeat (destruct H as [H|H]; [discriminate H|]). exact H.
  - eexists. split; reflexivity.
Qed.

(** The notification is sent where the backup is asked directly, as from
    [restoreMissingSessionsFromBackup]. *)
Example requestMissingSessionFromBackup_notifies :
  let r := run (_requestMissingSessionFromBackup sessionlessEnv (Some "senderkey")
                  (Some "session9")) (newWorld false) in
  since (newWorld false) r.2
  = [ ELogSet "enabled" (LBool false); ENotifyMissingMegolmSession ].
Proof. reflexivity. Qed.

(** ** The detached check of the key backup *)

(** C8.  A batch from sync with a missing session, a backup configured, and
    [dispose()] called while the backup is being asked: the detached task
    has waited its 10 seconds and found the orchestrator alive; when the
    backup answers it goes on, with the orchestrator disposed, to open a
    write transaction, write the room key and notify the room. *)
Theorem detached_backup_after_dispose :
  let r := run (decryptAndWrite tornDownEnv [megolmEvent] Sync callerTxn)
             (newWorld true) in
  _disposed r.2 = true
  /\ since (newWorld true) r.2
     = [ EMegolmPrepareDecryptAll "!room:example.org" [megolmEvent] megolmSyncCache
           callerTxn;
         EMegolmDecrypt;
         EMegolmWrite callerTxn;
         EAddMissingKeyEventIds "!room:example.org" (Some "senderkey") (Some "session9")
           ["$e2"] callerTxn;
         ELogWrapDetached "check key backup";
         ELogSet "source" (LSource Sync);
         ELogSet "events" (LNum 1);
         ELogSet "sessions" (LNum 1);
         ECreateTimeout 10000;
         EReadTxn [storeNames_inboundGroupSessions] 0;
         EHasSession "!room:example.org" (Some "senderkey") (Some "session9") 0;
         ELogWrap "session";
         ELogSet "id" (LText (Some "session9"));
         ELogSet "senderKey" (LText (Some "senderkey"));
         EGetSession "!room:example.org" (Some "session9");
         ECacheDispose megolmBackfillCache;
         ECacheDispose megolmSyncCache;
         ERoomKeyFromBackup "!room:example.org" (Some "session9")
           (Some matchingBackupSession);
         EReadWriteTxn [storeNames_inboundGroupSessions] 1;
         EWriteRoomKey exampleRoomKey 1;
         ELogSet "isBetter" (LBool true);
         ETxnComplete 1;
         ERoomKeyDispose exampleRoomKey;
         ELogWrap "retryDecryption";
         ENotifyRoomKey exampleRoomKey ["$e2"] ].
Proof. split; reflexivity. Qed.

(** The one check there is: disposed during the grace wait, the task stops
    before it touches the storage. *)
Example detached_backup_disposed_during_wait :
  let r := run (decryptAndWrite tornDownEarlyEnv [megolmEvent] Sync callerTxn)
             (newWorld true) in
  since (newWorld true) r.2
  = [ EMegolmPrepareDecryptAll "!room:example.org" [megolmEvent] megolmSyncCache
        callerTxn;
      EMegolmDecrypt;
      EMegolmWrite callerTxn;
      EAddMissingKeyEventIds "!room:example.org" (Some "senderkey") (Some "session9")
        ["$e2"] callerTxn;
      ELogWrapDetached "check key backup";
      ELogSet "source" (LSource Sync);
      ELogSet "events" (LNum 1);
      ELogSet "sessions" (LNum 1);
      ECreateTimeout 10000;
      ECacheDispose megolmBackfillCache;
      ECacheDispose megolmSyncCache ].
Proof. reflexivity. Qed.

(** The key has arrived during the grace wait: the backup is not asked. *)
Example detached_backup_key_arrived :
  let r := run (decryptAndWrite lateKeyEnv [megolmEvent] Sync callerTxn)
             (newWorld true) in
  since (newWorld true) r.2
  = [ EMegolmPrepareDecryptAll "!room:example.org" [megolmEvent] megolmSyncCache
        callerTxn;
      EMegolmDecrypt;
      EMegolmWrite callerTxn;
      EAddMissingKeyEventIds "!room:example.org" (Some "senderkey") (Some "session9")
        ["$e2"] callerTxn;
      ELogWrapDetached "check key backup";
      ELogSet "source" (LSource Sync);
      ELogSet "events" (LNum 1);
      ELogSet "sessions" (LNum 1);
      ECreateTimeout 10000;
      EReadTxn [storeNames_inboundGroupSessions] 0;
      EHasSession "!room:example.org" (Some "senderkey") (Some "session9") 0 ].
Proof. reflexivity. Qed.

(** ** Further properties of the recovery from the backup *)

Lemma filter_interruption (P : Effect -> bool) ds :
  forallb isCacheDispose ds = true ->
  (forall c, P (ECacheDispose c) = false) ->
  List.filter P ds = [].
Proof.
  intros Hds HP. induction ds as [|e ds IH]; [done|].
  simpl in Hds. apply andb_prop in Hds as [He Hds].
  destruct e; try discriminate. simpl. rewrite HP. by apply IH.
Qed.

(** No call of the kind in question is in the history. *)
Ltac absent :=
  rewrite ?existsb_app;
  rewrite ?existsb_map_false by reflexivity;
  repeat match goal with
  | Hds : forallb isCacheDispose ?ds = true |- context [existsb ?P ?ds] =>
      rewrite (existsb_interruption P ds Hds) by reflexivity
  end;
  reflexivity.

(** The calls on the left are made in that order. *)
Ltac in_order :=
  repeat (cbn [app];
          first [ apply sublist_nil_l | apply sublist_skip | apply sublist_cons
                | apply sublist_inserts_l ]).

(** Counts the calls of a kind in the history. *)
Ltac counted :=
  rewrite ?List.filter_app;
  repeat match goal with
  | Hds : forallb isCacheDispose ?ds = true |- context [List.filter ?P ?ds] =>
      rewrite (filter_interruption P ds Hds) by reflexivity
  end;
  reflexivity.

(** X1.  Whatever the collaborators answer or throw, a request to the backup
    returns normally. *)
Theorem requestMissingSessionFromBackup_never_throws env senderKey sessionId w :
  (run (_requestMissingSessionFromBackup env senderKey sessionId) w).1 = Return tt.
Proof.
  destruct w as [tr sb fl dp st tx nx]. unfold run.
  match goal with |- (?m ?w).1 = _ => change (wp m w (fun c _ => c = Return tt)) end.
  unfold _requestMissingSessionFromBackup.
  wp_run; try match goal with a : unit |- _ => destruct a end; reflexivity.
Qed.


(** X3.  The backup holds a megolm record with the expected sender key and
    the engine parses it into a room key.  If the engine stores the key, the
    calls are made in the order: ask the backup, parse, open a write
    transaction on the inbound sessions, write the key, complete the
    transaction, dispose the key; the room is notified, once and last, with
    the key and its event ids (none when the key has none), exactly when
    the key is the best one known; no transaction is aborted.  If the engine
    throws, the transaction is aborted and never completed, the key is
    disposed all the same, and the room is not notified. *)
Theorem requestMissingSessionFromBackup_import
    env senderKey sessionId session roomKey outcome w :
  _sessionBackup w = true ->
  (forall w0, getSession env w0 sessionId = Return (Some session)) ->
  algorithm session = Some (MEGOLM_ALGORITHM env) ->
  sender_key session = senderKey ->
  (forall w0, roomKeyFromBackup (_megolmDecryption env) w0 sessionId (Some session)
              = Some roomKey) ->
  (forall w0, writeRoomKey (_megolmDecryption env) w0 roomKey = outcome) ->
  let r := run (_requestMissingSessionFromBackup env senderKey sessionId) w in
  let es := since w r.2 in
  let txn := nextTxn w in
  match outcome with
  | Return keyIsBestOne =>
      [ EGetSession (room_id_of env) sessionId;
        ERoomKeyFromBackup (room_id_of env) sessionId (Some session);
        EReadWriteTxn [storeNames_inboundGroupSessions] txn;
        EWriteRoomKey roomKey txn;
        ETxnComplete txn;
        ERoomKeyDispose roomKey ]
      ++ (if keyIsBestOne
          then [ENotifyRoomKey roomKey (default [] (eventIds roomKey))] else [])
        `sublist_of` es
      /\ length (List.filter isNotifyRoomKey es) = (if keyIsBestOne then 1 else 0)
      /\ existsb isTxnAbort es = false
  | Throw err =>
      [ EReadWriteTxn [storeNames_inboundGroupSessions] txn;
        EWriteRoomKey roomKey txn;
        ETxnAbort txn;
        ERoomKeyDispose roomKey ] `sublist_of` es
      /\ existsb isTxnComplete es = false
      /\ existsb isNotifyRoomKey es = false
  end.
Proof.
  intros Hbackup Hsession Halgorithm Hsender HroomKey Hwrite.
  destruct w as [tr sb fl dp st tx nx]. simpl in Hbackup. subst sb. to_wp.
  unfold _requestMissingSessionFromBackup. repeat wp_step.
  cbn [negb]. repeat wp_step. rewrite Hsession. repeat wp_step.
  cbn [mbind option_bind]. rewrite Halgorithm, Hsender.
  rewrite bool_decide_true by done. rewrite bool_decide_false by (intros H; by apply H).
  repeat wp_step. rewrite HroomKey. repeat wp_step. rewrite Hwrite.
  destruct outcome as [[|]|err]; repeat wp_step.
  - wp_run; since_trace.
    all: split; [in_order|split; [counted|absent]].
  - since_trace. split; [in_order|split; [counted|absent]].
  - destruct (isNotFound err); cbn [negb]; repeat wp_step; since_trace.
    all: split; [in_order|split; absent].
Qed.

Lemma requestMissingSessionFromBackup_import_witness :
  let r := run (_requestMissingSessionFromBackup lateKeyEnv (Some "senderkey")
                  (Some "session9")) (newWorld true) in
  length (List.filter isNotifyRoomKey (since (newWorld true) r.2)) = 1
  /\ existsb isTxnAbort (since (newWorld true) r.2) = false.
Proof.
  pose proof (requestMissingSessionFromBackup_import lateKeyEnv (Some "senderkey")
                (Some "session9") matchingBackupSession exampleRoomKey (Return true)
                (newWorld true) eq_refl (fun _ => eq_refl) eq_refl eq_refl
                (fun _ => eq_refl) (fun _ => eq_refl)) as (_ & Hcount & Habort).
  split; [exact Hcount|exact Habort].
Defined.

(** X4.  Once a backup has been enabled, a missing session is looked up in
    it: the backup is asked for the session and the prompt to set up a
    backup is not raised. *)
Theorem enableSessionBackup_then_request env senderKey sessionId w :
  let r := run (enableSessionBackup ;;;
                _requestMissingSessionFromBackup env senderKey sessionId) w in
  let es := since w r.2 in
  In (EGetSession (room_id_of env) sessionId) es
  /\ existsb isNotifyMissingMegolmSession es = false
  /\ _sessionBackup r.2 = true.
Proof.
  destruct w as [tr sb fl dp st tx nx]. to_wp.
  unfold enableSessionBackup, _requestMissingSessionFromBackup.
  do 3 wp_step. destruct sb; repeat wp_step; cbn [negb]; wp_run; since_trace.
  all: split; [in_trace|split; [absent|reflexivity]].
Qed.

(** ** Further properties of the operations store and of key sharing *)

(** A transaction found open after closed ones were opened was open
    before. *)
Ltac still_open H :=
  repeat first
    [ apply lookup_delete_Some in H as [? H]
    | apply lookup_insert_Some in H as [[? ?]|[? H]]; [congruence|] ];
  exact H.

(** X5.  [_updateOperationsStore] with one write: when it returns, the write
    has reached the store through a transaction that was opened, written
    and completed in that order; when the write throws, the error is
    rethrown, the transaction is aborted and never completed, and the store
    is as before.  Either way no transaction is left open. *)
Theorem updateOperationsStore_atomic env write w :
  let r := run (_updateOperationsStore env
                  (fun operations => txn_operations env operations write)) w in
  let es := since w r.2 in
  let txn := nextTxn w in
  match r.1 with
  | Return _ =>
      operationsStore r.2 = applyWrite (operationsStore w) write
      /\ [EReadWriteTxn [storeNames_operations] txn; EOperations txn write;
          ETxnComplete txn] `sublist_of` es
  | Throw err =>
      operationsStore r.2 = operationsStore w
      /\ [EReadWriteTxn [storeNames_operations] txn; EOperations txn write;
          ETxnAbort txn] `sublist_of` es
      /\ existsb isTxnComplete es = false
      /\ exists w0, operations_throws env w0 write = Some err
  end
  /\ (forall t writes,
        openTxns r.2 !! t = Some writes -> openTxns w !! t = Some writes).
Proof.
  destruct w as [tr sb fl dp st tx nx]. to_wp. cbn [nextTxn operationsStore openTxns].
  unfold _updateOperationsStore. repeat wp_step.
  destruct (operations_throws env _ write) as [err|] eqn:Hthrows; repeat wp_step;
    since_trace.
  - split.
    + split; [reflexivity|]. split; [in_order|]. split; [absent|by eexists].
    + intros t writes H. still_open H.
  - split.
    + split; [reflexivity|in_order].
    + intros t writes H. still_open H.
Qed.

Lemma suspended_store env w :
  operationsStore (suspended env w) = operationsStore w
  /\ openTxns (suspended env w) = openTxns w
  /\ nextTxn (suspended env w) = nextTxn w
  /\ _isFlushingRoomKeyShares (suspended env w) = _isFlushingRoomKeyShares w
  /\ _sessionBackup (suspended env w) = _sessionBackup w.
Proof.
  destruct (suspended_interrupted env w) as (ds & b & -> & _). by destruct w.
Qed.

(** X6.  Whatever the collaborators answer or throw, a pass over an
    operation touches no other entry of the store than the operation's own,
    adds no operation, and closes every transaction it opened. *)
Theorem processShareRoomKeyOperation_confined env operation w :
  let r := run (_processShareRoomKeyOperation env operation) w in
  let es := since w r.2 in
  (forall k, k <> id operation -> operationsStore r.2 !! k = operationsStore w !! k)
  /\ operationsAdded es = []
  /\ txnsClosed es = txnsOpened es
  /\ (forall t writes,
        openTxns r.2 !! t = Some writes -> openTxns w !! t = Some writes).
Proof.
  destruct w as [tr sb fl dp st tx nx]. to_wp. cbn [operationsStore openTxns].
  unfold _processShareRoomKeyOperation, _updateOperationsStore,
    _sendMessagesToDevices, _sendSharedMessageToDevices.
  wp_run; since_trace.
  all: unfold setUserIds; cbn [fold_left applyWrite id fst snd].
  all: split; [intros k Hk; rewrite ?lookup_delete_ne, ?lookup_insert_ne by done;
               reflexivity|].
  all: split; [added|]. 
  all: unfold txnsClosed, txnsOpened; split; [read_off|].
  all: intros t writes; try exact (fun H => H).
  all: intros H; still_open H.
Qed.

(** X7.  The devices are resolved and olm encrypts for them, but the request
    to the home server throws: the pass throws that error after one request;
    the operation is not removed, and the store holds it for a later flush,
    with the user ids resolved when they were unresolved. *)
Theorem processShareRoomKeyOperation_send_fails env operation devices messages err w :
  (forall w0, trackRoom (_deviceTracker env) w0 = Return tt) ->
  (forall w0, devicesForTrackedRoom (_deviceTracker env) w0 = Return devices) ->
  (forall w0 ids, devicesForRoomMembers (_deviceTracker env) w0 ids = Return devices) ->
  (forall w0 write, operations_throws env w0 write = None) ->
  (forall w0 message targets, olm_encrypt env w0 message targets = Return messages) ->
  (forall w0 ty payload, sendToDevice env w0 ty payload = Throw err) ->
  let r := run (_processShareRoomKeyOperation env operation) w in
  let es := since w r.2 in
  r.1 = Throw err
  /\ length (List.filter isSendToDevice es) = 1
  /\ existsb isOperationsRemove es = false
  /\ operationsStore r.2
     = match userIds operation with
       | None =>
           <[id operation :=
               mkOperation (id operation) (type operation) (scope operation)
                 (Some (deviceOwners devices)) (roomKeyMessage operation)]>
             (operationsStore w)
       | Some _ => operationsStore w
       end.
Proof.
  intros Htrack Hall Hmembers Hstore Holm Hsend.
  destruct w as [tr sb fl dp st tx nx]. to_wp. cbn [operationsStore].
  unfold _processShareRoomKeyOperation, _updateOperationsStore, _sendMessagesToDevices.
  repeat wp_step. rewrite Htrack. repeat wp_step.
  destruct (userIds operation) as [ids|] eqn:Hids; repeat wp_step.
  - rewrite Hmembers. repeat wp_step. rewrite Holm. repeat wp_step.
    rewrite Hsend. repeat wp_step. since_trace.
    split; [reflexivity|]. split; [counted|]. split; [absent|reflexivity].
  - rewrite Hall. repeat wp_step. rewrite Hstore. repeat wp_step.
    rewrite Holm. repeat wp_step. rewrite Hsend. repeat wp_step. since_trace.
    split; [reflexivity|]. split; [counted|]. split; [absent|reflexivity].
Qed.

Lemma processShareRoomKeyOperation_send_fails_witness :
  let r := run (_processShareRoomKeyOperation sendFailsEnv exampleOperation)
             (newWorld false) in
  r.1 = Throw connectionError
  /\ operationsStore r.2
     = {[ "4711" := mkOperation "4711" "share_room_key" "!room:example.org"
                      (Some ["@alice:example.org"; "@bob:example.org"])
                      exampleRoomKeyMessage ]}.
Proof.
  pose proof (processShareRoomKeyOperation_send_fails sendFailsEnv exampleOperation
                exampleDevices exampleMessages connectionError (newWorld false)
                (fun _ => eq_refl) (fun _ => eq_refl) (fun _ _ => eq_refl)
                (fun _ _ => eq_refl) (fun _ _ _ => eq_refl) (fun _ _ _ => eq_refl))
    as (Hthrows & _ & _ & Hstore).
  split; [exact Hthrows|exact Hstore].
Defined.

(** X8.  The store rejects the new operation: [_shareNewRoomKey] rethrows
    the error, aborts the transaction it opened, and contacts neither the
    device tracker nor the home server; the store is as before. *)
Theorem shareNewRoomKey_add_fails env roomKeyMessage err w :
  (forall w0 write, operations_throws env w0 write = Some err) ->
  let r := run (_shareNewRoomKey env roomKeyMessage) w in
  let es := since w r.2 in
  r.1 = Throw err
  /\ [EReadWriteTxn [storeNames_operations] (nextTxn w); ETxnAbort (nextTxn w)]
       `sublist_of` es
  /\ existsb isTrackRoom es = false
  /\ existsb isSendToDevice es = false
  /\ operationsStore r.2 = operationsStore w
  /\ openTxns r.2 !! nextTxn w = None.
Proof.
  intros Hstore. destruct w as [tr sb fl dp st tx nx]. to_wp.
  cbn [nextTxn operationsStore].
  unfold _shareNewRoomKey, _writeRoomKeyShareOperation. repeat wp_step.
  rewrite Hstore. repeat wp_step. since_trace.
  split; [reflexivity|]. split; [in_order|]. split; [absent|]. split; [absent|].
  split; [reflexivity|apply lookup_delete_eq].
Qed.

Lemma shareNewRoomKey_add_fails_witness :
  let r := run (_shareNewRoomKey fullStoreEnv exampleRoomKeyMessage) (newWorld false) in
  r.1 = Throw storageError /\ existsb isSendToDevice (since (newWorld false) r.2) = false.
Proof.
  pose proof (shareNewRoomKey_add_fails fullStoreEnv exampleRoomKeyMessage storageError
                (newWorld false) (fun _ _ => eq_refl)) as (Hthrows & _ & _ & Hsend & _).
  split; [exact Hthrows|exact Hsend].
Defined.

(** When the collaborators answer, a pass returns and its net effect on the
    store is the removal of the operation. *)
Lemma processShareRoomKeyOperation_store env operation devices messages w :
  (forall w0, trackRoom (_deviceTracker env) w0 = Return tt) ->
  (forall w0, devicesForTrackedRoom (_deviceTracker env) w0 = Return devices) ->
  (forall w0 ids, devicesForRoomMembers (_deviceTracker env) w0 ids = Return devices) ->
  (forall w0 write, operations_throws env w0 write = None) ->
  (forall w0 message targets, olm_encrypt env w0 message targets = Return messages) ->
  (forall w0 ty payload, sendToDevice env w0 ty payload = Return tt) ->
  let r := run (_processShareRoomKeyOperation env operation) w in
  r.1 = Return tt
  /\ operationsStore r.2 = delete (id operation) (operationsStore w).
Proof.
  intros Htrack Hall Hmembers Hstore Holm Hsend.
  destruct w as [tr sb fl dp st tx nx]. to_wp. cbn [operationsStore].
  unfold _processShareRoomKeyOperation, _updateOperationsStore,
    _sendMessagesToDevices, _sendSharedMessageToDevices.
  repeat wp_step. rewrite Htrack. repeat wp_step.
  destruct (userIds operation) as [ids|] eqn:Hids; repeat wp_step.
  - rewrite Hmembers. repeat wp_step. rewrite Holm. repeat wp_step.
    rewrite Hsend. repeat wp_step.
    remember (missingDevicesOf devices messages) as missingDevices eqn:Hmissing.
    destruct (negb (length missingDevices =? 0)%nat) eqn:Hlen; repeat wp_step.
    + rewrite Hstore. repeat wp_step. rewrite Hsend. repeat wp_step.
      rewrite Hstore. repeat wp_step.
      unfold setUserIds; cbn [fold_left applyWrite id]. split; [reflexivity|].
      by rewrite delete_insert_eq.
    + rewrite Hstore. repeat wp_step. split; reflexivity.
  - rewrite Hall. repeat wp_step. rewrite Hstore. repeat wp_step.
    rewrite Holm. repeat wp_step. rewrite Hsend. repeat wp_step.
    remember (missingDevicesOf devices messages) as missingDevices eqn:Hmissing.
    destruct (negb (length missingDevices =? 0)%nat) eqn:Hlen; repeat wp_step.
    + rewrite Hstore. repeat wp_step. rewrite Hsend. repeat wp_step.
      rewrite Hstore. repeat wp_step.
      unfold setUserIds; cbn [fold_left applyWrite id]. split; [reflexivity|].
      by rewrite !delete_insert_eq.
    + rewrite Hstore. repeat wp_step.
      unfold setUserIds; cbn [fold_left applyWrite id]. split; [reflexivity|].
      by rewrite !delete_insert_eq.
Qed.

Lemma await_log_wrap env {A} label (m : Async A) w :
  await env (log_wrap label m) w
  = ((m (record (ELogWrap label) w)).1,
     suspended env (m (record (ELogWrap label) w)).2).
Proof.
  unfold await, log_wrap, bind, emit. by destruct (m (record (ELogWrap label) w)).
Qed.

Lemma flush_loop env devices messages operations w :
  (forall w0, trackRoom (_deviceTracker env) w0 = Return tt) ->
  (forall w0, devicesForTrackedRoom (_deviceTracker env) w0 = Return devices) ->
  (forall w0 ids, devicesForRoomMembers (_deviceTracker env) w0 ids = Return devices) ->
  (forall w0 write, operations_throws env w0 write = None) ->
  (forall w0 message targets, olm_encrypt env w0 message targets = Return messages) ->
  (forall w0 ty payload, sendToDevice env w0 ty payload = Return tt) ->
  let r := forEach operations
             (fun operation =>
                if negb (String.eqb (type operation) "share_room_key") then ret tt
                else await env (log_wrap "operation"
                                  (_processShareRoomKeyOperation env operation))) w in
  r.1 = Return tt
  /\ operationsStore r.2 = withoutShares operations (operationsStore w).
Proof.
  intros Htrack Hall Hmembers Hstore Holm Hsend. cbv zeta.
  revert w. induction operations as [|operation operations IH]; intros w; [done|].
  rewrite forEach_cons. unfold withoutShares. cbn [fold_left].
  unfold isShareRoomKey at 2.
  destruct (String.eqb (type operation) "share_room_key"); cbn [negb].
  - rewrite await_log_wrap.
    pose proof (processShareRoomKeyOperation_store env operation devices messages
                  (record (ELogWrap "operation") w)
                  Htrack Hall Hmembers Hstore Holm Hsend) as [Hreturn Hdeleted].
    unfold run in *. rewrite Hreturn.
    destruct (IH (suspended env
                    (_processShareRoomKeyOperation env operation
                       (record (ELogWrap "operation") w)).2)) as [-> ->].
    split; [reflexivity|].
    unfold withoutShares. by rewrite (proj1 (suspended_store env _)), Hdeleted.
  - unfold ret. apply IH.
Qed.

Lemma withoutShares_lookup operations store k :
  withoutShares operations store !! k
  = if bool_decide (k ∈ map id (List.filter isShareRoomKey operations)) then None
    else store !! k.
Proof.
  unfold withoutShares. revert store.
  induction operations as [|operation operations IH]; intros store;
    cbn [fold_left List.filter map].
  - rewrite bool_decide_false; [done|apply not_elem_of_nil].
  - rewrite IH. destruct (isShareRoomKey operation); cbn [map]; [|done].
    destruct (decide (k = id operation)) as [->|Hne].
    + rewrite lookup_delete_eq, (bool_decide_true (_ ∈ _ :: _)) by left.
      by destruct (bool_decide _).
    + rewrite lookup_delete_ne by done.
      destruct (bool_decide (k ∈ map id (List.filter isShareRoomKey operations)))
        eqn:Hin.
      * apply bool_decide_eq_true in Hin.
        rewrite (bool_decide_true (_ ∈ _ :: _)); [done|by right].
      * apply bool_decide_eq_false in Hin.
        rewrite (bool_decide_false (_ ∈ _ :: _)); [done|].
        intros [?|?]%elem_of_cons; done.
Qed.

(** X9.  A flush that reads the pending operations from the store, with
    collaborators that answer: it returns with the flag cleared, and the
    store afterwards is the store before without the key shares of this
    room; every other operation is still there, unchanged. *)
Theorem flushPendingRoomKeyShares_drains env devices messages w :
  (forall w0, trackRoom (_deviceTracker env) w0 = Return tt) ->
  (forall w0, devicesForTrackedRoom (_deviceTracker env) w0 = Return devices) ->
  (forall w0 ids, devicesForRoomMembers (_deviceTracker env) w0 ids = Return devices) ->
  (forall w0 write, operations_throws env w0 write = None) ->
  (forall w0 message targets, olm_encrypt env w0 message targets = Return messages) ->
  (forall w0 ty payload, sendToDevice env w0 ty payload = Return tt) ->
  _isFlushingRoomKeyShares w = false ->
  (forall k operation, operationsStore w !! k = Some operation -> id operation = k) ->
  let r := run (flushPendingRoomKeyShares env None) w in
  r.1 = Return tt
  /\ _isFlushingRoomKeyShares r.2 = false
  /\ forall k operation,
       operationsStore r.2 !! k = Some operation
       <-> operationsStore w !! k = Some operation
           /\ ~ (type operation = "share_room_key" /\ scope operation = room_id_of env).
Proof.
  intros Htrack Hall Hmembers Hstore Holm Hsend Hflag Hkeys.
  destruct w as [tr sb fl dp st tx nx]. simpl in Hflag, Hkeys. subst fl. to_wp.
  cbn [operationsStore].
  unfold flushPendingRoomKeyShares. repeat wp_step.
  unfold getAllByTypeAndScope at 1. unfold wp at 1. cbn [fst snd]. intros ds b _ _.
  wsimpl.
  match goal with
  | |- wp (forEach ?ops ?body) ?w0 _ =>
      pose proof (flush_loop env devices messages ops w0
                    Htrack Hall Hmembers Hstore Holm Hsend) as [Hreturn Hloop];
      unfold wp; destruct (forEach ops body w0) as [c w']
  end.
  cbn [fst snd] in *. subst c. unfold modify. cbn [fst snd]. wsimpl.
  split; [reflexivity|]. split; [reflexivity|].
  intros k operation. rewrite Hloop. wsimpl. rewrite withoutShares_lookup.
  set (pending := filter _ _).
  assert (forall operation, operation ∈ pending
            <-> (type operation = "share_room_key" /\ scope operation = room_id_of env)
                /\ st !! id operation = Some operation) as Hpending.
  { intros o. subst pending. rewrite list_elem_of_filter, list_elem_of_fmap. split.
    - intros [Hshare ([k' o'] & -> & Hin%elem_of_map_to_list)]. simpl in *.
      split; [done|]. by rewrite (Hkeys _ _ Hin).
    - intros [Hshare Hin]. split; [done|]. exists (id o, o).
      split; [done|by apply elem_of_map_to_list]. }
  assert (List.filter isShareRoomKey pending = pending) as ->.
  { apply forallb_filter_id, forallb_forall. intros o [[Htype _] _]%list_elem_of_In%Hpending.
    unfold isShareRoomKey. by rewrite Htype. }
  case_bool_decide as Hin.
  - split; [done|]. intros [Hk Hnot]. exfalso. apply Hnot.
    apply list_elem_of_In, in_map_iff in Hin as (o & <- & Ho).
    apply list_elem_of_In, Hpending in Ho as [Hshare Ho].
    rewrite Ho in Hk. by injection Hk as ->.
  - split.
    + intros Hk. split; [done|]. intros Hshare. apply Hin.
      rewrite <- (Hkeys _ _ Hk). apply list_elem_of_In, in_map, list_elem_of_In, Hpending.
      split; [done|]. by rewrite (Hkeys _ _ Hk).
    + by intros [Hk _].
Qed.

Lemma flushPendingRoomKeyShares_drains_witness :
  let r := run (flushPendingRoomKeyShares shareEnv None) pendingWorld in
  r.1 = Return tt
  /\ operationsStore r.2 !! "4711" = None
  /\ operationsStore r.2 !! "4713" = Some otherRoomOperation.
Proof.
  pose proof (flushPendingRoomKeyShares_drains shareEnv exampleDevices exampleMessages
                pendingWorld
                (fun _ => eq_refl) (fun _ => eq_refl) (fun _ _ => eq_refl)
                (fun _ _ => eq_refl) (fun _ _ _ => eq_refl) (fun _ _ _ => eq_refl)
                eq_refl) as H.
  assert (forall k operation,
            operationsStore pendingWorld !! k = Some operation -> id operation = k)
    as Hkeys.
  { intros k operation. unfold pendingWorld.
    cbn [operationsStore with_storage newWorld].
    rewrite lookup_insert_Some, lookup_singleton_Some.
    intros [[<- <-]|[_ [<- <-]]]; reflexivity. }
  destruct (H Hkeys) as (Hreturn & _ & Hstore).
  split; [exact Hreturn|]. split.
  - match goal with
    | |- ?store !! "4711" = None =>
        destruct (store !! "4711") as [operation|] eqn:Hlookup; [|reflexivity]
    end.
    apply Hstore in Hlookup as [Hbefore Hnot]. exfalso. apply Hnot.
    unfold pendingWorld in Hbefore. cbn [operationsStore with_storage newWorld] in Hbefore.
    rewrite lookup_insert_eq in Hbefore. injection Hbefore as <-. split; reflexivity.
  - apply Hstore. split.
    + unfold pendingWorld. cbn [operationsStore with_storage newWorld].
      rewrite lookup_insert_ne by discriminate. apply lookup_singleton_eq.
    + intros [_ Hscope]. discriminate Hscope.
Defined.

(** ** Further properties of the payloads *)




(** ** Further properties of the decryption of a batch *)


(** The errors map after the loop: under an event id, the error of the last
    event with that id that is neither redacted nor encrypted with megolm. *)
Lemma prepareDecryptAll_errors_lookup env events acc k :
  (fold_left (prepareDecryptAll_step env) events acc).1 !! k
  = match last (List.filter
                  (fun event =>
                     negb (redacted_because event || unsigned_redacted_because event)
                     && bool_decide (content_algorithm event ≠ Some (MEGOLM_ALGORITHM env))
                     && bool_decide (event_id event = k))
                  events) with
    | Some event => Some (unsupportedAlgorithm event)
    | None => acc.1 !! k
    end.
Proof.
  revert acc. induction events as [|event events IH]; intros acc; [reflexivity|].
  cbn [fold_left List.filter]. rewrite IH. unfold prepareDecryptAll_step.
  destruct (redacted_because event || unsigned_redacted_because event);
    cbn [negb andb fst snd]; [done|].
  case_bool_decide as Halgorithm; cbn [andb fst]; [|done].
  case_bool_decide as Hid; [|by rewrite lookup_insert_ne].
  destruct (List.filter _ events) as [|e es] eqn:Hfilter.
  - cbn [last]. by rewrite <- Hid, lookup_insert_eq.
  - change (last (event :: e :: es)) with (last (e :: es)).
    destruct (last (e :: es)) eqn:Hlast; [done|]. by apply last_None in Hlast.
Qed.

(** X12.  The errors that [prepareDecryptAll] itself attaches to a batch: an
    event id has one exactly when an event with that id is neither redacted
    nor encrypted with megolm, and the error then is the
    unsupported-algorithm error of the last such event; a redacted event and
    a megolm event bring no error of their own. *)
Theorem prepareDecryptAll_extra_errors env events source txn w preparation k :
  (run (prepareDecryptAll env events source txn) w).1 = Return preparation ->
  prep_extraErrors preparation !! k
  = unsupportedAlgorithm
      <$> last (List.filter
                  (fun event =>
                     negb (redacted_because event || unsigned_redacted_because event)
                     && bool_decide (content_algorithm event ≠ Some (MEGOLM_ALGORITHM env))
                     && bool_decide (event_id event = k))
                  events).
Proof.
  destruct w as [tr sb fl dp st tx nx]. unfold run.
  match goal with
  | |- (?m ?w0).1 = _ -> ?G =>
      change (wp m w0 (fun c _ => c = Return preparation -> G))
  end.
  unfold prepareDecryptAll.
  destruct source; repeat wp_step; try discriminate.
  all: intros [= <-]; cbn [prep_extraErrors]; rewrite prepareDecryptAll_errors_lookup.
  all: cbn [fst]; rewrite lookup_empty; by destruct (last _).
Qed.

Lemma prepareDecryptAll_extra_errors_witness :
  exists preparation,
    (run (prepareDecryptAll decryptingEnv [olmEvent; megolmEvent] Timeline callerTxn)
       (newWorld false)).1 = Return preparation
    /\ prep_extraErrors preparation !! "$e1" = Some (unsupportedAlgorithm olmEvent)
    /\ prep_extraErrors preparation !! "$e2" = None.
Proof.
  eexists. split; [reflexivity|]. split.
  - exact (prepareDecryptAll_extra_errors decryptingEnv [olmEvent; megolmEvent] Timeline
             callerTxn (newWorld false) _ "$e1" eq_refl).
  - reflexivity.
Defined.

Lemma wp_log_wrapDetached label (callback : Async unit) w
    (Q : Completion unit -> World -> Prop) :
  wp callback (record (ELogWrapDetached label) w) (fun _ w' => Q (Return tt) w') ->
  wp (log_wrapDetached label callback) w Q.
Proof. exact (fun H => H). Qed.




(** One step of symbolic execution that keeps track of a raised
    [_disposed] flag across suspensions. *)
Ltac wp_step_disposed :=
  first
    [ lazymatch goal with
      | |- forall ds b, forallb isCacheDispose ds = true -> _ =>
          let ds := fresh "ds" in let b := fresh "b" in
          let Hds := fresh "Hds" in let Hb := fresh "Hb" in
          intros ds b Hds Hb;
          cbn [implb _disposed record with_trace with_storage with_disposed
               interrupted] in Hb;
          subst b
      end; cbv beta; wsimpl
    | wp_step ].

(** X14.  Once the orchestrator is disposed, the key recovery of a batch from
    sync never gets past its grace wait: the storage of inbound sessions is
    neither read nor written, the backup is not asked, no room key is
    written, and the room is not notified, whatever the collaborators
    answer. *)
Theorem decryptAndWrite_after_dispose env events txn w :
  _disposed w = true ->
  let r := run (decryptAndWrite env events Sync txn) w in
  let es := since w r.2 in
  _disposed r.2 = true
  /\ existsb isReadTxn es = false
  /\ existsb isReadWriteTxn es = false
  /\ existsb isGetSession es = false
  /\ existsb isWriteRoomKey es = false
  /\ existsb isNotifyRoomKey es = false.
Proof.
  intros Hdisposed. destruct w as [tr sb fl dp st tx nx]. simpl in Hdisposed. subst dp.
  to_wp.
  unfold decryptAndWrite, prepareDecryptAll, decrypt, write, _processDecryptionResults.
  repeat wp_step_disposed.
  cbn [_megolmDecryptionPreparation _megolmDecryptionChanges
       prep_extraErrors prep_source prep_events _extraErrors _source _events].
  repeat wp_step_disposed.
  destruct (length _ =? 0)%nat; repeat wp_step_disposed.
  - since_trace. repeat split; absent.
  - cbn [isSync]. repeat wp_step_disposed. apply wp_forEach_emit.
    repeat wp_step_disposed. destruct sb; cbn [negb]; repeat wp_step_disposed.
    + apply wp_log_wrapDetached. repeat wp_step_disposed.
      since_trace. repeat split; absent.
    + since_trace. repeat split; absent.
Qed.

Lemma decryptAndWrite_after_dispose_witness :
  let w := with_disposed true (newWorld true) in
  let r := run (decryptAndWrite sessionlessEnv [megolmEvent] Sync callerTxn) w in
  existsb isGetSession (since w r.2) = false
  /\ existsb isReadTxn (since w r.2) = false.
Proof.
  pose proof (decryptAndWrite_after_dispose sessionlessEnv [megolmEvent] callerTxn
                (with_disposed true (newWorld true)) eq_refl)
    as (_ & Hread & _ & Hbackup & _).
  split; [exact Hbackup|exact Hread].
Defined.

(** ** Restoring the sessions of a timeline from the backup *)

Lemma hasSessions_run env (present : option string -> option string -> bool)
    txn groups w :
  (forall w0 senderKey sessionId,
     hasSession (_megolmDecryption env) w0 senderKey sessionId
     = present senderKey sessionId) ->
  hasSessions env txn groups w
  = (Return (map (fun group => present (group_senderKey group) (group_sessionId group))
               groups),
     with_trace
       (trace w
        ++ map (fun group =>
                  EHasSession (room_id_of env) (group_senderKey group)
                    (group_sessionId group) txn) groups) w).
Proof.
  intros Hpresent. revert w. induction groups as [|group groups IH]; intros w.
  - cbn [hasSessions map]. unfold ret, with_trace. rewrite app_nil_r. by destruct w.
  - cbn [hasSessions map]. unfold bind at 1, call. rewrite Hpresent.
    unfold bind. rewrite IH. unfold ret, record, with_trace. cbn [trace].
    by rewrite <- app_assoc.
Qed.

Lemma missing_sessions {A} (f : A -> bool) (l : list A) :
  map fst (List.filter (fun gh : A * bool => negb gh.2) (combine l (map f l)))
  = List.filter (fun a => negb (f a)) l.
Proof.
  induction l as [|a l IH]; [done|]. cbn [map combine List.filter snd].
  destruct (f a); cbn [negb map fst]; by rewrite IH.
Qed.

(** One request, as the loops make it. *)
Lemma request_summary env senderKey sessionId w :
  let r := await env (log_wrap "session"
                        (_requestMissingSessionFromBackup env senderKey sessionId)) w in
  r.1 = Return tt
  /\ _sessionBackup r.2 = _sessionBackup w
  /\ exists es,
       trace r.2 = trace w ++ es
       /\ if _sessionBackup w
          then sessionsRequested es = [sessionId]
               /\ List.filter isNotifyMissingMegolmSession es = []
          else sessionsRequested es = []
               /\ List.filter isNotifyMissingMegolmSession es
                  = [ENotifyMissingMegolmSession].
Proof.
  destruct w as [tr sb fl dp st tx nx]. to_wp. cbn [trace _sessionBackup].
  unfold _requestMissingSessionFromBackup.
  destruct sb; repeat wp_step; cbn [negb]; wp_run.
  all: split; [by repeat match goal with a : unit |- _ => destruct a end|].
  all: split; [reflexivity|].
  all: eexists; (split; [rewrite <- ?app_assoc; reflexivity|]).
  all: unfold sessionsRequested; split; [read_off|counted].
Qed.

Lemma restore_loop env sessions w :
  let r := forEach sessions
             (fun session =>
                await env (log_wrap "session"
                             (_requestMissingSessionFromBackup env
                                (group_senderKey session) (group_sessionId session)))) w in
  r.1 = Return tt
  /\ exists es,
       trace r.2 = trace w ++ es
       /\ if _sessionBackup w
          then sessionsRequested es = map group_sessionId sessions
               /\ List.filter isNotifyMissingMegolmSession es = []
          else sessionsRequested es = []
               /\ length (List.filter isNotifyMissingMegolmSession es) = length sessions.
Proof.
  cbv zeta. revert w. induction sessions as [|session sessions IH]; intros w.
  - split; [reflexivity|]. exists []. split; [by rewrite app_nil_r|].
    by destruct (_sessionBackup w).
  - rewrite forEach_cons.
    destruct (request_summary env (group_senderKey session) (group_sessionId session) w)
      as (Hreturn & Hbackup & es1 & Htrace1 & Hfirst).
    cbv zeta in *. destruct (await env _ w) as [c w1]. cbn [fst snd] in *. subst c.
    destruct (IH w1) as (Hloop & es2 & Htrace2 & Hrest).
    split; [exact Hloop|]. exists (es1 ++ es2).
    split; [by rewrite Htrace2, Htrace1, app_assoc|].
    rewrite Hbackup in Hrest. unfold sessionsRequested in *.
    rewrite omap_app, List.filter_app.
    destruct (_sessionBackup w).
    + destruct Hfirst as [-> ->], Hrest as [-> ->]. done.
    + destruct Hfirst as [-> ->], Hrest as [-> Hcount]. split; [done|].
      cbn [app length]. by rewrite Hcount.
Qed.

(** X15.  [restoreMissingSessionsFromBackup] looks at the entries that are
    encrypted, not decrypted and have an event, and asks the storage once
    whether it has the session of each group of their events.  It returns
    normally whatever the backup does.  With a backup it asks the backup for
    exactly the sessions that the storage does not have, one request per
    session, the session of the last group first, and raises no prompt;
    without a backup it raises the prompt once per such session and asks
    nothing. *)
Theorem restoreMissingSessionsFromBackup_order env entries present w :
  (forall w0 senderKey sessionId,
     hasSession (_megolmDecryption env) w0 senderKey sessionId
     = present senderKey sessionId) ->
  let r := run (restoreMissingSessionsFromBackup env entries) w in
  let es := since w r.2 in
  let events :=
    omap (fun entry =>
            if isEncrypted entry && negb (isDecrypted entry) then entry_event entry
            else None) entries in
  let missing :=
    List.filter
      (fun group => negb (present (group_senderKey group) (group_sessionId group)))
      (map snd (groupEventsBySession events)) in
  r.1 = Return tt
  /\ if _sessionBackup w
     then sessionsRequested es = rev (map group_sessionId missing)
          /\ List.filter isNotifyMissingMegolmSession es = []
     else sessionsRequested es = []
          /\ length (List.filter isNotifyMissingMegolmSession es) = length missing.
Proof.
  intros Hpresent. destruct w as [tr sb fl dp st tx nx]. to_wp. cbn [_sessionBackup].
  unfold restoreMissingSessionsFromBackup. repeat wp_step.
  unfold wp at 1. rewrite (hasSessions_run env present) by exact Hpresent.
  cbn [fst snd]. intros ds1 b1 Hds1 _. wsimpl. rewrite missing_sessions.
  match goal with
  | |- wp (forEach ?sessions ?body) ?w0 _ =>
      destruct (restore_loop env sessions w0) as (Hreturn & es & Htrace & Hloop);
      unfold wp; cbv zeta in Hreturn, Htrace;
      destruct (forEach sessions body w0) as [c w']
  end.
  cbn [fst snd] in *. subst c. split; [reflexivity|].
  cbn [trace record with_trace with_storage interrupted with_disposed] in Htrace.
  erewrite since_extend by (rewrite Htrace, <- ?app_assoc; reflexivity).
  cbn [_sessionBackup record with_trace with_storage interrupted with_disposed] in Hloop.
  unfold sessionsRequested in *.
  rewrite !omap_app, !List.filter_app.
  rewrite (omap_interruption _ ds0), (omap_interruption _ ds1) by (assumption || reflexivity).
  rewrite (filter_interruption _ ds0), (filter_interruption _ ds1)
    by (assumption || reflexivity).
  assert (forall groups : list SessionKeyGroup,
            omap (fun e => match e with
                           | EGetSession _ sessionId => Some sessionId
                           | _ => None
                           end)
              (map (fun group => EHasSession (room_id_of env) (group_senderKey group)
                                   (group_sessionId group) nx) groups) = []) as ->.
  { intros groups. induction groups; [done|]. cbn [map omap list_omap]. done. }
  assert (forall groups : list SessionKeyGroup,
            List.filter isNotifyMissingMegolmSession
              (map (fun group => EHasSession (room_id_of env) (group_senderKey group)
                                   (group_sessionId group) nx) groups) = []) as ->.
  { intros groups. induction groups; [done|]. cbn [map List.filter]. done. }
  cbn [omap list_omap List.filter isNotifyMissingMegolmSession app].
  destruct sb.
  - destruct Hloop as [-> ->]. by rewrite map_rev.
  - destruct Hloop as [-> ->]. by rewrite length_rev.
Qed.

Lemma restoreMissingSessionsFromBackup_order_witness :
  let r := run (restoreMissingSessionsFromBackup unreachableBackupEnv exampleEntries)
             (newWorld true) in
  r.1 = Return tt
  /\ sessionsRequested (since (newWorld true) r.2)
     = [Some "session10"; Some "session9"].
Proof.
  pose proof (restoreMissingSessionsFromBackup_order unreachableBackupEnv exampleEntries
                (fun _ _ => false) (newWorld true) (fun _ _ _ => eq_refl))
    as [Hreturn Hrequested].
  split; [exact Hreturn|exact (proj1 Hrequested)].
Defined.

(** ** Methods beside the two pipelines *)





(** X19.  [writeMemberChanges] asks the megolm engine for a room key message
    exactly when [needsToShareKeys] holds of the member changes; its result
    is [undefined] exactly when it does not hold, and then no operation is
    added. *)
Theorem needsToShareKeys_writeMemberChanges env memberChanges txn w :
  let r := run (writeMemberChanges env memberChanges txn) w in
  let es := since w r.2 in
  existsb isCreateRoomKeyMessage es = needsToShareKeys memberChanges
  /\ (needsToShareKeys memberChanges = false <-> r.1 = Return None)
  /\ (needsToShareKeys memberChanges = false -> operationsAdded es = []).
Proof.
  destruct w as [tr sb fl dp st tx nx]. to_wp. unfold needsToShareKeys.
  unfold writeMemberChanges, _addShareRoomKeyOperationForNewMembers,
    _writeRoomKeyShareOperation.
  repeat wp_step.
  destruct (existsb hasLeft memberChanges) eqn:Hleft;
    destruct (existsb hasJoined memberChanges) eqn:Hjoined; repeat wp_step;
    try (destruct (createRoomKeyMessage _ _ txn) as [message|] eqn:Hmessage;
         repeat wp_step;
         try (destruct (operations_throws env _ _) eqn:Hthrows; repeat wp_step));
    since_trace.
  all: split;
    [absent|].
  all: split; [split; first [done|discriminate]|].
  all: first [discriminate | intros _; added].
Qed.

Lemma request_direct env senderKey sessionId w :
  _sessionBackup w = true ->
  let r := log_wrap "session"
             (_requestMissingSessionFromBackup env senderKey sessionId) w in
  r.1 = Return tt
  /\ _sessionBackup r.2 = true
  /\ exists es,
       trace r.2 = trace w ++ es
       /\ sessionsRequested es = [sessionId]
       /\ existsb delaysRecovery es = false.
Proof.
  intros Hbackup. destruct w as [tr sb fl dp st tx nx]. simpl in Hbackup. subst sb.
  to_wp. cbn [trace].
  unfold _requestMissingSessionFromBackup. repeat wp_step; cbn [negb]; wp_run.
  all: split; [by repeat match goal with a : unit |- _ => destruct a end|].
  all: split; [reflexivity|].
  all: eexists; (split; [rewrite <- ?app_assoc; reflexivity|]).
  all: unfold sessionsRequested; split; [read_off|].
  all: absent.
Qed.

Lemma recovery_loop env groups w :
  _sessionBackup w = true ->
  let r := forEach groups
             (fun group =>
                log_wrap "session"
                  (_requestMissingSessionFromBackup env (group_senderKey group)
                     (group_sessionId group))) w in
  r.1 = Return tt
  /\ exists es,
       trace r.2 = trace w ++ es
       /\ sessionsRequested es = map group_sessionId groups
       /\ existsb delaysRecovery es = false.
Proof.
  cbv zeta. revert w. induction groups as [|group groups IH]; intros w Hbackup.
  - split; [reflexivity|]. exists []. split; [by rewrite app_nil_r|done].
  - rewrite forEach_cons.
    destruct (request_direct env (group_senderKey group) (group_sessionId group) w
                Hbackup) as (Hreturn & Hkept & es1 & Htrace1 & Hasked & Hquiet).
    cbv zeta in *. destruct (log_wrap _ _ w) as [c w1]. cbn [fst snd] in *. subst c.
    destruct (IH w1 Hkept) as (Hloop & es2 & Htrace2 & Hrest & Hquiet2).
    split; [exact Hloop|]. exists (es1 ++ es2).
    split; [by rewrite Htrace2, Htrace1, app_assoc|].
    unfold sessionsRequested in *.
    by rewrite omap_app, existsb_app, Hasked, Hrest, Hquiet, Hquiet2.
Qed.

(** X20.  With a backup configured, the batches that do not come from sync
    are recovered at once: [write] records no missing key, waits for no
    late key and does not check the storage, and the backup is asked for
    the session of every group of events that ended with a missing-session
    error, in the order of the groups. *)
Theorem write_recovers_at_once env changes txn w :
  isSync (_source changes) = false ->
  _sessionBackup w = true ->
  let r := run (write env changes txn) w in
  let es := since w r.2 in
  existsb delaysRecovery es = false
  /\ exists result,
       r.1 = Return result
       /\ sessionsRequested es
          = map group_sessionId
              (map snd (groupEventsBySession
                          (List.filter (isMissingSession (errors result))
                             (_events changes)))).
Proof.
  intros Hsource Hbackup. destruct w as [tr sb fl dp st tx nx].
  simpl in Hbackup. subst sb. to_wp.
  unfold write, _processDecryptionResults. repeat wp_step.
  match goal with
  | |- context [changes_write ?d ?w0 ?v] =>
      destruct (changes_write d w0 v) as [decrypted failed]
  end.
  cbn [fst snd]. repeat wp_step. rewrite Hsource.
  destruct (length _ =? 0)%nat eqn:Hlength; repeat wp_step.
  - since_trace. split.
    + absent.
    + eexists. split; [reflexivity|]. cbn [errors].
      apply Nat.eqb_eq, length_zero_iff_nil in Hlength. rewrite Hlength.
      unfold sessionsRequested. read_off.
  - cbn [negb]. repeat wp_step. apply wp_log_wrapDetached. repeat wp_step.
    match goal with
    | |- wp (forEach ?groups ?body) ?w0 _ =>
        destruct (recovery_loop env groups w0 eq_refl)
          as (Hreturn & es & Htrace & Hasked & Hquiet);
        unfold wp; cbv zeta in Hreturn, Htrace;
        destruct (forEach groups body w0) as [c w']
    end.
    cbn [fst snd] in *. subst c. intros dsLast bLast HdsLast _. repeat wp_step.
    cbn [trace record with_trace with_storage interrupted with_disposed] in Htrace.
    unfold ret. cbn [fst snd].
    erewrite since_extend
      by (wsimpl; rewrite Htrace, <- ?app_assoc; reflexivity).
    split.
    + rewrite ?existsb_app, Hquiet. absent.
    + eexists. split; [reflexivity|]. cbn [errors]. unfold sessionsRequested in *.
      rewrite ?omap_app. cbn [omap list_omap app]. rewrite Hasked.
      repeat (rewrite omap_interruption by (assumption || reflexivity)).
      by rewrite app_nil_r.
Qed.

Lemma write_recovers_at_once_witness :
  let changes := mkDecryptionChanges [megolmEvent] ∅ Timeline [megolmEvent] in
  let r := run (write unreachableBackupEnv changes callerTxn) (newWorld true) in
  existsb delaysRecovery (since (newWorld true) r.2) = false
  /\ sessionsRequested (since (newWorld true) r.2) = [Some "session9"].
Proof.
  pose proof (write_recovers_at_once unreachableBackupEnv
                (mkDecryptionChanges [megolmEvent] ∅ Timeline [megolmEvent]) callerTxn
                (newWorld true) eq_refl eq_refl) as (Hquiet & result & Hreturn & Hasked).
  split; [exact Hquiet|]. rewrite Hasked.
  injection Hreturn as <-. reflexivity.
Defined.
